(** * begin-again-kit: driver hooks over the hosted relational store

    A shallow embedding of the data-fetching hooks of the driver screens
    ([useAvailableOrders], [useDriverOrders]) together with the part of the
    hosted backend they talk to.  The hooks are written against a query
    builder; an awaited query is a remote call that either succeeds with
    data or fails with an error, and the hooks branch on that.  The model
    therefore threads an explicit [World] (database, clock, outcome of the
    successive remote calls, and what the UI layer was told) through a small
    state-and-exception monad.

    Console output is not modelled.  The distance estimate of the delivery
    request card is double-precision arithmetic: it is embedded over the
    binary64 floats, with [Math.sin], [Math.cos], [Math.atan2] and
    [Math.round], which the engine supplies, taken as they come.

    The mutations that insert rows ([assignOrderToDriver] and the accept
    and reject buttons of the delivery request card) run over the same
    world extended with the notification table and a journal of all
    calls; the age shown on the card ([timeAgo]) is integer arithmetic. *)

From stdpp Require Import base numbers option list strings sorting pretty.
From Stdlib Require Import Floats.

Open Scope string_scope.
Open Scope list_scope.

(** ** Rows *)

(** [type OrderStatus] of the driver hook. *)
Inductive OrderStatus :=
  pending | confirmed | preparing | ready | delivered | cancelled.

(** The string an [OrderStatus] is at run time. *)
Definition status_text (s : OrderStatus) : string :=
  match s with
  | pending => "pending"
  | confirmed => "confirmed"
  | preparing => "preparing"
  | ready => "ready"
  | delivered => "delivered"
  | cancelled => "cancelled"
  end.

(** A row of [orders]; [None] is SQL NULL. *)
Record Order := {
  o_id : string;
  o_status : string;
  o_notes : option string;
  o_delivery_address_id : option string;
  o_created_at : string;
  o_updated_at : string }.

(** A row of [order_assignments]. *)
Record OrderAssignment := {
  a_id : string;
  a_order_id : string;
  a_driver_id : string;
  a_assigned_at : string;
  a_picked_up_at : option string;
  a_delivered_at : option string }.

Record DB := {
  orders : list Order;
  order_assignments : list OrderAssignment }.

(** ** The query builder *)

(** A JSON object with string members, as passed to [.update(...)]. *)
Definition Json := list (string * string).

Inductive Filter :=
| F_eq (column value : string)                (* .eq(column, value) *)
| F_is_null (column : string)                 (* .is(column, null) *)
| F_in (column : string) (values : list string)  (* .in(column, [v1, ...]) *)
| F_not_in (column : string) (values : list string)
                                     (* .not(column, 'in', '(v1,...)') *)
| F_not_cs (column value : string).           (* .not(column, 'cs', value) *)

(** An embedded resource of a select list: [resource ( columns, nested )],
    or [resource!inner ( ... )]. *)
#[warnings="-register-all"]
Inductive Embed :=
| Embedded (resource : string) (inner : bool)
           (columns : list string) (nested : list Embed).

Inductive Verb :=
| V_select (columns : list string) (embeds : list Embed)
| V_update (payload : Json).

(** What goes over the wire for one awaited query. *)
Record Request := {
  r_table : string;
  r_verb : Verb;
  r_filters : list Filter;
  r_order : option (string * bool) (* column, ascending *) }.

(** A table of the store, seen through its row type. *)
Class Table (Row : Type) := {
  table_name : string;
  rows : DB -> list Row;
  with_rows : list Row -> DB -> DB;
  (** [None]: no such column; [Some None]: the column is NULL. *)
  column : string -> Row -> option (option string);
  (** [SET column = value]; a name that is no column leaves the row. *)
  assign : string -> string -> Row -> Row }.

#[export] Instance orders_table : Table Order := {
  table_name := "orders";
  rows := orders;
  with_rows l d := {| orders := l; order_assignments := order_assignments d |};
  column c o :=
    match c with
    | "id" => Some (Some (o_id o))
    | "status" => Some (Some (o_status o))
    | "notes" => Some (o_notes o)
    | "delivery_address_id" => Some (o_delivery_address_id o)
    | "created_at" => Some (Some (o_created_at o))
    | "updated_at" => Some (Some (o_updated_at o))
    | _ => None
    end;
  assign c v o :=
    match c with
    | "status" =>
        {| o_id := o_id o; o_status := v; o_notes := o_notes o;
           o_delivery_address_id := o_delivery_address_id o;
           o_created_at := o_created_at o; o_updated_at := o_updated_at o |}
    | "updated_at" =>
        {| o_id := o_id o; o_status := o_status o; o_notes := o_notes o;
           o_delivery_address_id := o_delivery_address_id o;
           o_created_at := o_created_at o; o_updated_at := v |}
    | _ => o
    end }.

#[export] Instance order_assignments_table : Table OrderAssignment := {
  table_name := "order_assignments";
  rows := order_assignments;
  with_rows l d := {| orders := orders d; order_assignments := l |};
  column c a :=
    match c with
    | "id" => Some (Some (a_id a))
    | "order_id" => Some (Some (a_order_id a))
    | "driver_id" => Some (Some (a_driver_id a))
    | "assigned_at" => Some (Some (a_assigned_at a))
    | "picked_up_at" => Some (a_picked_up_at a)
    | "delivered_at" => Some (a_delivered_at a)
    | _ => None
    end;
  assign c v a :=
    match c with
    | "picked_up_at" =>
        {| a_id := a_id a; a_order_id := a_order_id a;
           a_driver_id := a_driver_id a; a_assigned_at := a_assigned_at a;
           a_picked_up_at := Some v; a_delivered_at := a_delivered_at a |}
    | "delivered_at" =>
        {| a_id := a_id a; a_order_id := a_order_id a;
           a_driver_id := a_driver_id a; a_assigned_at := a_assigned_at a;
           a_picked_up_at := a_picked_up_at a; a_delivered_at := Some v |}
    | _ => a
    end }.

(** A query under construction; the row type records which table
    [from] named.  [is_], [in_], [not_in] and [not_cs] are the builder's
    [.is(c, null)], [.in(c, vs)], [.not(c, 'in', '(v1,...)')] and
    [.not(c, 'cs', v)]. *)
Record Query (Row : Type) := Q { request : Request }.
Arguments Q {Row} _.
Arguments request {Row} _.

(** What [from] answers with: the table, still without a verb. *)
Record TableRef (Row : Type) := Ref { ref_name : string }.
Arguments Ref {Row} _.
Arguments ref_name {Row} _.

Module supabase.
Definition from (Row : Type) `{Table Row} : TableRef Row :=
  Ref (table_name (Row := Row)).

Definition select {Row} (columns : list string) (embeds : list Embed)
    (table : TableRef Row) : Query Row :=
  Q {| r_table := ref_name table; r_verb := V_select columns embeds;
       r_filters := []; r_order := None |}.

Definition update {Row} (payload : Json) (table : TableRef Row)
    : Query Row :=
  Q {| r_table := ref_name table; r_verb := V_update payload;
       r_filters := []; r_order := None |}.

Definition filtered {Row} (f : Filter) (q : Query Row) : Query Row :=
  Q {| r_table := r_table (request q); r_verb := r_verb (request q);
       r_filters := r_filters (request q) ++ [f];
       r_order := r_order (request q) |}.

Definition eq {Row} (c v : string) : Query Row -> Query Row :=
  filtered (F_eq c v).
Definition is_ {Row} (c : string) : Query Row -> Query Row :=
  filtered (F_is_null c).
Definition in_ {Row} (c : string) (vs : list string) : Query Row -> Query Row :=
  filtered (F_in c vs).
Definition not_in {Row} (c : string) (vs : list string)
    : Query Row -> Query Row :=
  filtered (F_not_in c vs).
Definition not_cs {Row} (c v : string) : Query Row -> Query Row :=
  filtered (F_not_cs c v).

Definition order {Row} (c : string) (ascending : bool) (q : Query Row)
    : Query Row :=
  Q {| r_table := r_table (request q); r_verb := r_verb (request q);
       r_filters := r_filters (request q);
       r_order := Some (c, ascending) |}.
End supabase.

(** Method chaining. *)
Notation "q |> m" := (m q) (at level 45, left associativity, only parsing).

(** ** The backend *)

(** How the backend resolves what depends on its schema and is not a plain
    column comparison on the queried table: whether an inner-joined
    embedded resource keeps a row, and what a filter on something that is
    no column of the table does.  The schema lives with the hosted
    backend, so both are taken as they come. *)
Record Schema := {
  joined : forall Row, Table Row -> Embed -> DB -> Row -> bool;
  foreign : forall Row, Table Row -> Filter -> DB -> Row -> bool }.

Definition member (x : string) (l : list string) : bool :=
  bool_decide (x ∈ l).

Section Backend.
Context (schema : Schema).
Context {Row : Type} `{T : Table Row}.

(** One filter on one row; a comparison with NULL drops the row. *)
Definition keeps (d : DB) (f : Filter) (r : Row) : bool :=
  match f with
  | F_eq c v =>
      match column c r with
      | Some (Some x) => bool_decide (x = v)
      | Some None => false
      | None => foreign schema Row T f d r
      end
  | F_is_null c =>
      match column c r with
      | Some (Some _) => false
      | Some None => true
      | None => foreign schema Row T f d r
      end
  | F_in c vs =>
      match column c r with
      | Some (Some x) => member x vs
      | Some None => false
      | None => foreign schema Row T f d r
      end
  | F_not_in c vs =>
      match column c r with
      | Some (Some x) => negb (member x vs)
      | Some None => false
      | None => foreign schema Row T f d r
      end
  | F_not_cs c v => foreign schema Row T f d r
  end.

Definition keeps_embed (d : DB) (e : Embed) (r : Row) : bool :=
  match e with
  | Embedded _ true _ _ => joined schema Row T e d r
  | Embedded _ false _ _ => true
  end.

Definition matches (d : DB) (embeds : list Embed) (fs : list Filter)
    (r : Row) : bool :=
  forallb (fun e => keeps_embed d e r) embeds
  && forallb (fun f => keeps d f r) fs.

(** Ordering of two column values, NULL last. *)
Definition value_leb (x y : option string) : bool :=
  match x, y with
  | Some a, Some b => String.leb a b
  | _, None => true
  | None, Some _ => false
  end.

Definition row_leb (c : string) (ascending : bool) (r1 r2 : Row) : bool :=
  match column c r1, column c r2 with
  | Some x, Some y => if ascending then value_leb x y else value_leb y x
  | _, _ => true
  end.

Definition ordered (o : option (string * bool)) (l : list Row) : list Row :=
  match o with
  | Some (c, ascending) =>
      merge_sort (fun r1 r2 => Is_true (row_leb c ascending r1 r2)) l
  | None => l
  end.

Definition patch (payload : Json) (r : Row) : Row :=
  foldl (fun r '(c, v) => assign c v r) r payload.

(** What a request does to the store, and the rows it answers with
    (an update without a select answers with no rows). *)
Definition execute (q : Request) (d : DB) : list Row * DB :=
  match r_verb q with
  | V_select _ embeds =>
      (ordered (r_order q)
         (List.filter (matches d embeds (r_filters q)) (rows d)), d)
  | V_update payload =>
      ([], with_rows
             (map (fun r => if matches d [] (r_filters q) r
                            then patch payload r else r) (rows d)) d)
  end.
End Backend.

(** ** Remote calls and the UI layer *)

Record PostgrestError := {
  message : string;
  code : string }.

(** The result of an awaited query: [{ data, error: null }] or
    [{ data: null, error }]. *)
Inductive Response (A : Type) :=
| Success (data : A)
| Failure (error : PostgrestError).
Arguments Success {A} _.
Arguments Failure {A} _.

Inductive Toast :=
| toast_success (text : string)
| toast_error (text : string).

(** Everything a hook can read or change.  [faults] holds the fate of the
    remote calls still to come, in order ([Some e]: the call fails with
    [e] and leaves the store alone; [None], or nothing left: the backend
    carries it out); [calls] is the record of the calls made, oldest first,
    each with the error it came back with. *)
Record World := {
  db : DB;
  now : string;
  faults : list (option PostgrestError);
  calls : list (Request * option PostgrestError);
  invalidated : list (list string);
  toasts : list Toast }.

(** A world in which every remote call is carried out. *)
Definition faithful (d : DB) (clock : string) : World :=
  {| db := d; now := clock; faults := []; calls := [];
     invalidated := []; toasts := [] |}.

Inductive Completion (A : Type) :=
| Return (value : A)
| Throw (error : PostgrestError).
Arguments Return {A} _.
Arguments Throw {A} _.

Definition M (A : Type) : Type := World -> Completion A * World.

Definition ret {A} (a : A) : M A := fun w => (Return a, w).

Definition throw {A} (e : PostgrestError) : M A := fun w => (Throw e, w).

Definition bind {A B} (m : M A) (k : A -> M B) : M B := fun w =>
  match m w with
  | (Return a, w') => k a w'
  | (Throw e, w') => (Throw e, w')
  end.

Notation "x <- m ;; k" := (bind m (fun x => k))
  (at level 100, m at next level, right associativity).
Notation "m ;; k" := (bind m (fun _ => k))
  (at level 100, right associativity).

(** [new Date().toISOString()] *)
Definition toISOString_now : M string := fun w => (Return (now w), w).

(** [queryClient.invalidateQueries({ queryKey })] *)
Definition invalidateQueries (queryKey : list string) : M unit := fun w =>
  (Return tt,
   {| db := db w; now := now w; faults := faults w; calls := calls w;
      invalidated := invalidated w ++ [queryKey]; toasts := toasts w |}).

Definition toast (t : Toast) : M unit := fun w =>
  (Return tt,
   {| db := db w; now := now w; faults := faults w; calls := calls w;
      invalidated := invalidated w; toasts := toasts w ++ [t] |}).

Definition answered (w : World) (d : DB) (q : Request)
    (e : option PostgrestError) : World :=
  {| db := d; now := now w; faults := tail (faults w);
     calls := calls w ++ [(q, e)];
     invalidated := invalidated w; toasts := toasts w |}.

(** [useMutation({ mutationFn, onSuccess, onError })] *)
Record Mutation (V : Type) := {
  mutationFn : V -> M unit;
  onSuccess : M unit;
  onError : PostgrestError -> M unit }.
Arguments mutationFn {V} _ _.
Arguments onSuccess {V} _.
Arguments onError {V} _ _.

(** [mutation.mutate(variables)]: the callbacks see how [mutationFn]
    completed; nothing is thrown to the caller. *)
Definition mutate {V} (m : Mutation V) (variables : V) : M unit := fun w =>
  match mutationFn m variables w with
  | (Return _, w') => onSuccess m w'
  | (Throw e, w') => onError m e w'
  end.

(** ** Truthiness and strings *)

(** [!!driverId] for [driverId?: string]. *)
Definition truthy (s : option string) : bool :=
  match s with
  | Some "" | None => false
  | Some _ => true
  end.

(** [s.includes(sub)] *)
Fixpoint includes (s sub : string) : bool :=
  String.prefix sub s ||
  match s with
  | EmptyString => false
  | String _ s' => includes s' sub
  end.

(** ** Change feed *)

Inductive EventType := INSERT | UPDATE | DELETE.

Record ChangeFilter := {
  event : EventType;
  schema_name : string;
  table : string }.

(** A change as handed to a callback; [new] is [payload.new]. *)
Record Payload := {
  eventType : EventType;
  p_schema : string;
  p_table : string;
  new : Order }.

(** [supabase.channel(name).on('postgres_changes', filter, callback)...] *)
Record Channel := {
  channel_name : string;
  listeners : list (ChangeFilter * (Payload -> M unit)) }.

Definition EventType_eqb (a b : EventType) : bool :=
  match a, b with
  | INSERT, INSERT | UPDATE, UPDATE | DELETE, DELETE => true
  | _, _ => false
  end.

Definition listens (f : ChangeFilter) (p : Payload) : bool :=
  EventType_eqb (event f) (eventType p)
  && bool_decide (schema_name f = p_schema p)
  && bool_decide (table f = p_table p).

(** The change feed hands a change to every listener of the channel whose
    filter it passes, in the order they were registered. *)
Fixpoint dispatch (ls : list (ChangeFilter * (Payload -> M unit)))
    (p : Payload) : M unit :=
  match ls with
  | [] => ret tt
  | (f, callback) :: rest =>
      (if listens f p then callback p else ret tt) ;;
      dispatch rest p
  end.

Definition receive (ch : Channel) (p : Payload) : M unit :=
  dispatch (listeners ch) p.

(** ** The hooks *)

Section Hooks.
Context (schema : Schema).

(** [await query]: one remote call. *)
Definition await {Row} `{Table Row} (q : Query Row)
    : M (Response (list Row)) := fun w =>
  match faults w with
  | Some e :: _ =>
      (Return (Failure e), answered w (db w) (request q) (Some e))
  | _ =>
      let '(data, d) := execute schema (request q) (db w) in
      (Return (Success data), answered w d (request q) None)
  end.

(** *** useAvailableOrders *)

(** The loop of [useAvailableOrders] over the fetched orders: each order is
    looked up in [order_assignments] again and pushed unless rows came
    back. *)
Fixpoint filterOrders (data filteredOrders : list Order) : M (list Order) :=
  match data with
  | [] => ret filteredOrders
  | order :: rest =>
      response <- await (supabase.from OrderAssignment
                         |> supabase.select ["id"] []
                         |> supabase.eq "order_id" (o_id order)) ;;
      let push :=
        match response with
        | Failure _ => true                 (* !assignments *)
        | Success assignments => bool_decide (length assignments = 0)
        end in
      filterOrders rest
        (if push then filteredOrders ++ [order] else filteredOrders)
  end.

Definition useAvailableOrders_queryFn (driverId : option string)
    : M (list Order) :=
  if negb (truthy driverId) then ret [] else
  response <- await (supabase.from Order
    |> supabase.select ["*"]
         [Embedded "profiles" true ["full_name"; "phone"] [];
          Embedded "delivery_addresses" true
            ["street_address"; "city"; "latitude"; "longitude"] [];
          Embedded "order_items" false ["id"; "quantity"]
            [Embedded "menu_items" false ["name"] [];
             Embedded "composite_dishes" false ["name"] []]]
    |> supabase.eq "status" "pending"
    |> supabase.is_ "delivery_address_id"
    |> supabase.not_cs "order_assignments" "{}"
    |> supabase.order "created_at" true) ;;
  match response with
  | Failure error => throw error
  | Success data => filterOrders data []
  end.

(** The callback for inserted orders. *)
Definition on_insert (payload : Payload) : M unit :=
  let order := new payload in
  let mesa :=                        (* order.notes?.includes('Mesa:') *)
    match o_notes order with
    | Some notes => includes notes "Mesa:"
    | None => false
    end in
  if bool_decide (o_status order = "pending") && negb mesa
  then invalidateQueries ["available-orders"]
  else ret tt.

(** The callback for updated orders. *)
Definition on_update (payload : Payload) : M unit :=
  invalidateQueries ["available-orders"].

(** The subscription effect of [useAvailableOrders]: the channel it
    subscribes to, if any. *)
Definition useAvailableOrders_subscription (driverId : option string)
    : option Channel :=
  if negb (truthy driverId) then None else
  Some {| channel_name := "new-orders-changes";
          listeners :=
            [({| event := INSERT; schema_name := "public";
                 table := "orders" |}, on_insert);
             ({| event := UPDATE; schema_name := "public";
                 table := "orders" |}, on_update)] |}.

(** *** useDriverOrders *)

Definition assignedOrders_queryFn (driverId : option string)
    : M (list Order) :=
  match driverId with
  | Some "" | None => ret []
  | Some driver =>
      response <- await (supabase.from Order
        |> supabase.select ["*"]
             [Embedded "profiles" false ["full_name"; "phone"] [];
              Embedded "delivery_addresses" false
                ["street_address"; "city"; "postal_code"] [];
              Embedded "order_items" false
                ["id"; "quantity"; "unit_price"; "total_price"]
                [Embedded "menu_items" false ["name"] []];
              Embedded "order_assignments" true
                ["id"; "assigned_at"; "picked_up_at"; "delivered_at";
                 "estimated_pickup_time"; "estimated_delivery_time";
                 "actual_distance"] []]
        |> supabase.eq "order_assignments.driver_id" driver
        |> supabase.in_ "status" ["confirmed"; "preparing"; "ready"]
        |> supabase.order "created_at" false) ;;
      match response with
      | Failure error => throw error
      | Success data => ret data
      end
  end.

Definition availableOrders_queryFn : M (list Order) :=
  response <- await (supabase.from OrderAssignment
                     |> supabase.select ["order_id"] []) ;;
  match response with
  | Failure assignedError => throw assignedError
  | Success assignedOrderIds =>
      let excludeOrderIds := map a_order_id assignedOrderIds in
      let query :=
        supabase.from Order
        |> supabase.select ["*"]
             [Embedded "profiles" false ["full_name"; "phone"] [];
              Embedded "delivery_addresses" false
                ["street_address"; "city"; "postal_code"] [];
              Embedded "order_items" false
                ["id"; "quantity"; "unit_price"; "total_price"]
                [Embedded "menu_items" false ["name"] []]]
        |> supabase.eq "status" "ready"
        |> supabase.order "created_at" false in
      let query :=
        if bool_decide (0 < length excludeOrderIds)
        then query |> supabase.not_in "id" excludeOrderIds
        else query in
      response <- await query ;;
      match response with
      | Failure error => throw error
      | Success data => ret data
      end
  end.

Record AssignmentUpdate := {
  picked_up_at : option string;
  delivered_at : option string }.

(** The JSON object an [AssignmentUpdate] is sent as: the members it has. *)
Definition AssignmentUpdate_json (u : AssignmentUpdate) : Json :=
  match picked_up_at u with Some t => [("picked_up_at", t)] | None => [] end
  ++ match delivered_at u with Some t => [("delivered_at", t)] | None => [] end.

Record StatusVariables := {
  orderId : string;
  status : OrderStatus;
  assignmentUpdate : option AssignmentUpdate }.

Definition updateOrderStatus_mutationFn (v : StatusVariables) : M unit :=
  updated_at <- toISOString_now ;;
  response <- await (supabase.from Order
    |> supabase.update [("status", status_text (status v));
                        ("updated_at", updated_at)]
    |> supabase.eq "id" (orderId v)) ;;
  match response with
  | Failure orderError => throw orderError
  | Success _ =>
      match assignmentUpdate v with
      | Some u =>
          response <- await (supabase.from OrderAssignment
            |> supabase.update (AssignmentUpdate_json u)
            |> supabase.eq "order_id" (orderId v)) ;;
          match response with
          | Failure assignmentError => throw assignmentError
          | Success _ => ret tt
          end
      | None => ret tt
      end
  end.

Definition updateOrderStatus : Mutation StatusVariables := {|
  mutationFn := updateOrderStatus_mutationFn;
  onSuccess :=
    invalidateQueries ["driver-orders"] ;;
    invalidateQueries ["available-orders"] ;;
    toast (toast_success "Estado del pedido actualizado");
  onError error :=
    toast (toast_error ("Error al actualizar pedido: " +:+ message error)) |}.

Definition pickupOrder (order : string) : M unit :=
  t <- toISOString_now ;;
  mutate updateOrderStatus
    {| orderId := order; status := ready;
       assignmentUpdate :=
         Some {| picked_up_at := Some t; delivered_at := None |} |}.

Definition deliverOrder (order : string) : M unit :=
  t <- toISOString_now ;;
  mutate updateOrderStatus
    {| orderId := order; status := delivered;
       assignmentUpdate :=
         Some {| picked_up_at := None; delivered_at := Some t |} |}.

End Hooks.

(** ** Vocabulary of the properties *)

(** The remote calls a computation makes from [w], and the query keys it
    invalidates. *)
Definition issued {A} (m : M A) (w : World)
    : list (Request * option PostgrestError) :=
  drop (length (calls w)) (calls (snd (m w))).

Definition invalidations {A} (m : M A) (w : World) : list (list string) :=
  drop (length (invalidated w)) (invalidated (snd (m w))).

Definition notices {A} (m : M A) (w : World) : list Toast :=
  drop (length (toasts w)) (toasts (snd (m w))).

(** The fate of the remote call after [n] others, and of the next one. *)
Definition fault_at (n : nat) (w : World) : option PostgrestError :=
  match faults w !! n with
  | Some (Some e) => Some e
  | _ => None
  end.

Definition next_fault (w : World) : option PostgrestError := fault_at 0 w.

(** The two writes of a status update, as the payloads are described:
    [{status, updated_at}] on [orders] where [id = orderId], and the
    assignment update on [order_assignments] where [order_id = orderId]. *)
Definition orders_write (v : StatusVariables) (t : string) : Request :=
  {| r_table := "orders";
     r_verb := V_update [("status", status_text (status v));
                         ("updated_at", t)];
     r_filters := [F_eq "id" (orderId v)];
     r_order := None |}.

Definition assignment_write (v : StatusVariables) (u : AssignmentUpdate)
    : Request :=
  {| r_table := "order_assignments";
     r_verb := V_update (AssignmentUpdate_json u);
     r_filters := [F_eq "order_id" (orderId v)];
     r_order := None |}.

(** What the two writes do to a row. *)
Definition with_status (v : StatusVariables) (t : string) (o : Order)
    : Order :=
  if bool_decide (o_id o = orderId v)
  then {| o_id := o_id o; o_status := status_text (status v);
          o_notes := o_notes o;
          o_delivery_address_id := o_delivery_address_id o;
          o_created_at := o_created_at o; o_updated_at := t |}
  else o.

Definition with_times (v : StatusVariables) (u : AssignmentUpdate)
    (a : OrderAssignment) : OrderAssignment :=
  if bool_decide (a_order_id a = orderId v)
  then {| a_id := a_id a; a_order_id := a_order_id a;
          a_driver_id := a_driver_id a; a_assigned_at := a_assigned_at a;
          a_picked_up_at :=
            match picked_up_at u with
            | Some t => Some t
            | None => a_picked_up_at a
            end;
          a_delivered_at :=
            match delivered_at u with
            | Some t => Some t
            | None => a_delivered_at a
            end |}
  else a.

(** The payloads of a status update as they are described without regard
    to how the first write went: the [orders] write is the one request to
    [orders], and the assignment write is sent exactly when an assignment
    update was given. *)
Definition status_payloads_regardless (v : StatusVariables) (t : string)
    (sent : list Request) : Prop :=
  List.filter (fun q => bool_decide (r_table q = "orders")) sent
  = [orders_write v t]
  /\ (forall u, assignmentUpdate v = Some u -> assignment_write v u ∈ sent)
  /\ (assignmentUpdate v = None ->
      forall q, q ∈ sent -> r_table q <> "order_assignments").

(** No row of [order_assignments] refers to the order. *)
Definition unassigned (d : DB) (o : Order) : Prop :=
  forall a, a ∈ order_assignments d -> a_order_id a <> o_id o.

(** The notes are there and have [sub] somewhere in them. *)
Definition mentions (sub : string) (notes : option string) : Prop :=
  exists n pre post, notes = Some n /\ n = pre +:+ sub +:+ post.

(** A change of a row of [public.orders], as the feed reports it. *)
Definition change (t : EventType) (row : Order) : Payload :=
  {| eventType := t; p_schema := "public"; p_table := "orders";
     new := row |}.

(** ** Sample data *)

(** A backend that lets every row through its joins and through the
    filters that are not column comparisons. *)
Definition permissive : Schema :=
  {| joined _ _ _ _ _ := true; foreign _ _ _ _ _ := true |}.

Definition sample_order (id st : string) : Order :=
  {| o_id := id; o_status := st; o_notes := None;
     o_delivery_address_id := None;
     o_created_at := "2024-05-01T12:00:00.000Z";
     o_updated_at := "2024-05-01T12:00:00.000Z" |}.

Definition sample_assignment (id order driver : string) : OrderAssignment :=
  {| a_id := id; a_order_id := order; a_driver_id := driver;
     a_assigned_at := "2024-05-01T12:05:00.000Z";
     a_picked_up_at := None; a_delivered_at := None |}.

Definition sample_db : DB :=
  {| orders := [sample_order "o1" "pending"; sample_order "o2" "ready";
                sample_order "o3" "ready"];
     order_assignments := [sample_assignment "a1" "o3" "d1"] |}.

Definition timeout_error : PostgrestError :=
  {| message := "upstream request timeout"; code := "504" |}.

Definition sample_variables : StatusVariables :=
  {| orderId := "o3"; status := delivered;
     assignmentUpdate :=
       Some {| picked_up_at := None;
               delivered_at := Some "2024-05-01T13:00:00.000Z" |} |}.

Definition failing (d : DB) (clock : string)
    (fs : list (option PostgrestError)) : World :=
  {| db := d; now := clock; faults := fs; calls := [];
     invalidated := []; toasts := [] |}.

(** ** Further vocabulary *)

(** The order of creation that [order('created_at', ...)] asks the backend
    for: oldest first when ascending, newest first when not. *)
Definition oldest_first (a b : Order) : Prop :=
  Is_true (String.leb (o_created_at a) (o_created_at b)).

Definition newest_first (a b : Order) : Prop := oldest_first b a.

(** The statuses the assigned-orders query asks for. *)
Definition in_progress (o : Order) : Prop :=
  o_status o = "confirmed" \/ o_status o = "preparing"
  \/ o_status o = "ready".

(** The select [useAvailableOrders] starts with, and the lookup it makes
    for one order. *)
Definition pending_orders_select : Request :=
  {| r_table := "orders";
     r_verb :=
       V_select ["*"]
         [Embedded "profiles" true ["full_name"; "phone"] [];
          Embedded "delivery_addresses" true
            ["street_address"; "city"; "latitude"; "longitude"] [];
          Embedded "order_items" false ["id"; "quantity"]
            [Embedded "menu_items" false ["name"] [];
             Embedded "composite_dishes" false ["name"] []]];
     r_filters := [F_eq "status" "pending"; F_is_null "delivery_address_id";
                   F_not_cs "order_assignments" "{}"];
     r_order := Some ("created_at", true) |}.

Definition lookup_request (order : string) : Request :=
  {| r_table := "order_assignments"; r_verb := V_select ["id"] [];
     r_filters := [F_eq "order_id" order]; r_order := None |}.

(** More sample data: an order created at a given time, a store whose one
    pending order is assigned, and a store with three pending orders that
    are not in order of creation, the second of them assigned. *)
Definition sample_order_at (id st created : string) : Order :=
  {| o_id := id; o_status := st; o_notes := None;
     o_delivery_address_id := None;
     o_created_at := created; o_updated_at := created |}.


Definition queue_db : DB :=
  {| orders := [sample_order_at "o7" "pending" "2024-05-01T12:30:00.000Z";
                sample_order_at "o6" "pending" "2024-05-01T12:20:00.000Z";
                sample_order_at "o5" "pending" "2024-05-01T12:10:00.000Z"];
     order_assignments := [sample_assignment "a6" "o6" "d1"] |}.

(** ** The distance estimate

    Numbers are binary64 floats.  [Math.PI] and [Math.sqrt] are the
    constant and the correctly rounded square root; the other functions
    of [Math] that the estimate uses are the engine's. *)












(** ** Writes that add rows, single-row reads and the notification table

    [assignOrderToDriver] and the delivery request card insert rows, read
    with [.single()], write columns of [order_assignments] that the status
    update never touches, and use the [driver_notifications] table.  They
    run over the world of the hooks together with what only they need. *)

Inductive JsonValue :=
| J_text (s : string)
| J_flag (b : bool).

(** A JSON object as passed to [.insert(...)]. *)
Definition Body := list (string * JsonValue).

(** A row of [driver_notifications]. *)
Record DriverNotification := {
  n_id : string;
  n_driver_id : string;
  n_order_id : string;
  n_notification_type : string;
  n_title : string;
  n_message : string;
  n_response : option string;
  n_is_read : bool;
  n_responded_at : option string }.

Inductive Call :=
| call_request (q : Request)         (* a call as the hooks make them *)
| call_single (q : Request)          (* a select ended by .single() *)
| call_insert (table : string) (body : Body)
| call_update (table : string) (body : Body) (filters : list Filter).

(** The notification table, the number of rows inserted so far (ids of
    new rows are generated from it), every remote call in order, and the
    two flags of the delivery request card. *)
Record Rest := {
  driver_notifications : list DriverNotification;
  serial : nat;
  journal : list (Call * option PostgrestError);
  isAccepting : bool;
  isRejecting : bool }.

Definition nothing_yet : Rest :=
  {| driver_notifications := []; serial := 0; journal := [];
     isAccepting := false; isRejecting := false |}.

Definition M2 (A : Type) : Type :=
  Rest * World -> Completion A * (Rest * World).

Definition ret2 {A} (a : A) : M2 A := fun s => (Return a, s).

Definition throw2 {A} (e : PostgrestError) : M2 A := fun s => (Throw e, s).

Definition bind2 {A B} (m : M2 A) (k : A -> M2 B) : M2 B := fun s =>
  match m s with
  | (Return a, s') => k a s'
  | (Throw e, s') => (Throw e, s')
  end.

Notation "x <~ m ;; k" := (bind2 m (fun x => k))
  (at level 100, m at next level, right associativity).
Notation "m ~;; k" := (bind2 m (fun _ => k))
  (at level 100, right associativity).

(** [try { ... } finally { ... }] *)
Definition finally {A} (m : M2 A) (f : M2 unit) : M2 A := fun s =>
  match m s with
  | (c, s') => (c, snd (f s'))
  end.

Definition logged (r : Rest) (cs : list (Call * option PostgrestError))
    : Rest :=
  {| driver_notifications := driver_notifications r; serial := serial r;
     journal := journal r ++ cs;
     isAccepting := isAccepting r; isRejecting := isRejecting r |}.

(** A computation of the hooks, its calls entered in the journal. *)
Definition lift {A} (m : M A) : M2 A := fun '(r, w) =>
  match m w with
  | (c, w') =>
      (c, (logged r (map (fun '(q, e) => (call_request q, e))
                       (drop (length (calls w)) (calls w'))), w'))
  end.

(** The world after a remote call that is entered in the journal only. *)
Definition settled (w : World) (d : DB) : World :=
  {| db := d; now := now w; faults := tail (faults w); calls := calls w;
     invalidated := invalidated w; toasts := toasts w |}.

(** A table rows can be inserted into. *)
Class Relation (Row : Type) := {
  relation_name : string;
  stored : Rest * DB -> list Row;
  store : list Row -> Rest * DB -> Rest * DB;
  (** The row an insert starts from, given its generated id. *)
  blank : string -> Row;
  (** One member of the inserted or updated object; a name that is no
      column of the row leaves it. *)
  put : string -> JsonValue -> Row -> Row }.

#[export] Instance order_assignments_relation : Relation OrderAssignment := {
  relation_name := "order_assignments";
  stored s := order_assignments (snd s);
  store l s :=
    (fst s, {| orders := orders (snd s); order_assignments := l |});
  blank id :=
    {| a_id := id; a_order_id := ""; a_driver_id := ""; a_assigned_at := "";
       a_picked_up_at := None; a_delivered_at := None |};
  put c v a :=
    match c, v with
    | "order_id", J_text s =>
        {| a_id := a_id a; a_order_id := s; a_driver_id := a_driver_id a;
           a_assigned_at := a_assigned_at a;
           a_picked_up_at := a_picked_up_at a;
           a_delivered_at := a_delivered_at a |}
    | "driver_id", J_text s =>
        {| a_id := a_id a; a_order_id := a_order_id a; a_driver_id := s;
           a_assigned_at := a_assigned_at a;
           a_picked_up_at := a_picked_up_at a;
           a_delivered_at := a_delivered_at a |}
    | "assigned_at", J_text s =>
        {| a_id := a_id a; a_order_id := a_order_id a;
           a_driver_id := a_driver_id a; a_assigned_at := s;
           a_picked_up_at := a_picked_up_at a;
           a_delivered_at := a_delivered_at a |}
    | "picked_up_at", J_text s =>
        {| a_id := a_id a; a_order_id := a_order_id a;
           a_driver_id := a_driver_id a; a_assigned_at := a_assigned_at a;
           a_picked_up_at := Some s; a_delivered_at := a_delivered_at a |}
    | "delivered_at", J_text s =>
        {| a_id := a_id a; a_order_id := a_order_id a;
           a_driver_id := a_driver_id a; a_assigned_at := a_assigned_at a;
           a_picked_up_at := a_picked_up_at a; a_delivered_at := Some s |}
    | _, _ => a
    end }.

#[export] Instance driver_notifications_relation
    : Relation DriverNotification := {
  relation_name := "driver_notifications";
  stored s := driver_notifications (fst s);
  store l s :=
    ({| driver_notifications := l; serial := serial (fst s);
        journal := journal (fst s); isAccepting := isAccepting (fst s);
        isRejecting := isRejecting (fst s) |}, snd s);
  blank id :=
    {| n_id := id; n_driver_id := ""; n_order_id := "";
       n_notification_type := ""; n_title := ""; n_message := "";
       n_response := None; n_is_read := false; n_responded_at := None |};
  put c v n :=
    match c, v with
    | "driver_id", J_text s =>
        {| n_id := n_id n; n_driver_id := s; n_order_id := n_order_id n;
           n_notification_type := n_notification_type n;
           n_title := n_title n; n_message := n_message n;
           n_response := n_response n; n_is_read := n_is_read n;
           n_responded_at := n_responded_at n |}
    | "order_id", J_text s =>
        {| n_id := n_id n; n_driver_id := n_driver_id n; n_order_id := s;
           n_notification_type := n_notification_type n;
           n_title := n_title n; n_message := n_message n;
           n_response := n_response n; n_is_read := n_is_read n;
           n_responded_at := n_responded_at n |}
    | "notification_type", J_text s =>
        {| n_id := n_id n; n_driver_id := n_driver_id n;
           n_order_id := n_order_id n; n_notification_type := s;
           n_title := n_title n; n_message := n_message n;
           n_response := n_response n; n_is_read := n_is_read n;
           n_responded_at := n_responded_at n |}
    | "title", J_text s =>
        {| n_id := n_id n; n_driver_id := n_driver_id n;
           n_order_id := n_order_id n;
           n_notification_type := n_notification_type n;
           n_title := s; n_message := n_message n;
           n_response := n_response n; n_is_read := n_is_read n;
           n_responded_at := n_responded_at n |}
    | "message", J_text s =>
        {| n_id := n_id n; n_driver_id := n_driver_id n;
           n_order_id := n_order_id n;
           n_notification_type := n_notification_type n;
           n_title := n_title n; n_message := s;
           n_response := n_response n; n_is_read := n_is_read n;
           n_responded_at := n_responded_at n |}
    | "response", J_text s =>
        {| n_id := n_id n; n_driver_id := n_driver_id n;
           n_order_id := n_order_id n;
           n_notification_type := n_notification_type n;
           n_title := n_title n; n_message := n_message n;
           n_response := Some s; n_is_read := n_is_read n;
           n_responded_at := n_responded_at n |}
    | "is_read", J_flag b =>
        {| n_id := n_id n; n_driver_id := n_driver_id n;
           n_order_id := n_order_id n;
           n_notification_type := n_notification_type n;
           n_title := n_title n; n_message := n_message n;
           n_response := n_response n; n_is_read := b;
           n_responded_at := n_responded_at n |}
    | "responded_at", J_text s =>
        {| n_id := n_id n; n_driver_id := n_driver_id n;
           n_order_id := n_order_id n;
           n_notification_type := n_notification_type n;
           n_title := n_title n; n_message := n_message n;
           n_response := n_response n; n_is_read := n_is_read n;
           n_responded_at := Some s |}
    | _, _ => n
    end }.

(** The id the backend gives the next inserted row. *)
Definition generated (r : Rest) : string := "gen-" +:+ pretty (serial r).

Definition counted (r : Rest) : Rest :=
  {| driver_notifications := driver_notifications r; serial := S (serial r);
     journal := journal r;
     isAccepting := isAccepting r; isRejecting := isRejecting r |}.

(** The error of [.single()] when the rows are not exactly one. *)
Definition single_error : PostgrestError :=
  {| message := "JSON object requested, multiple (or no) rows returned";
     code := "PGRST116" |}.

(** [str.slice(-n)]: the last [n] characters, or all of a shorter one. *)
Definition slice_last (n : nat) (s : string) : string :=
  String.substring (String.length s - n) n s.

Section Card.
Context (schema : Schema).

(** [await supabase.from(table).insert(body)] *)
Definition insert (Row : Type) `{Relation Row} (body : Body)
    : M2 (Response unit) := fun '(r, w) =>
  let call := call_insert (relation_name (Row := Row)) body in
  match next_fault w with
  | Some e =>
      (Return (Failure e), (logged r [(call, Some e)], settled w (db w)))
  | None =>
      let row := foldl (fun x '(c, v) => put c v x)
                   (blank (Row := Row) (generated r)) body in
      let '(r', d) :=
        store (stored (r, db w) ++ [row]) (counted r, db w) in
      (Return (Success tt), (logged r' [(call, None)], settled w d))
  end.

(** [await supabase.from(table).update(body).eq(...)], for the columns
    that [put] knows. *)
Definition update_where (Row : Type) `{Table Row} `{Relation Row}
    (body : Body) (filters : list Filter) : M2 (Response unit) :=
  fun '(r, w) =>
  let call := call_update (relation_name (Row := Row)) body filters in
  match next_fault w with
  | Some e =>
      (Return (Failure e), (logged r [(call, Some e)], settled w (db w)))
  | None =>
      let '(r', d) :=
        store (map (fun x => if matches schema (db w) [] filters x
                             then foldl (fun x '(c, v) => put c v x) x body
                             else x)
                 (stored (r, db w))) (r, db w) in
      (Return (Success tt), (logged r' [(call, None)], settled w d))
  end.

(** [await query.single()]: the one row, or an error when the rows are
    none or several. *)
Definition await_single {Row} `{Table Row} (q : Query Row)
    : M2 (Response Row) := fun '(r, w) =>
  let call := call_single (request q) in
  match next_fault w with
  | Some e =>
      (Return (Failure e), (logged r [(call, Some e)], settled w (db w)))
  | None =>
      match fst (execute schema (request q) (db w)) with
      | [x] =>
          (Return (Success x), (logged r [(call, None)], settled w (db w)))
      | _ =>
          (Return (Failure single_error),
           (logged r [(call, Some single_error)], settled w (db w)))
      end
  end.

(** [useMutation] over these calls; [mutateAsync] hands the error of
    [mutationFn] on to its caller once the callback has run. *)
Record Mutation2 (V : Type) := {
  mutationFn2 : V -> M2 unit;
  onSuccess2 : M2 unit;
  onError2 : PostgrestError -> M2 unit }.
Arguments mutationFn2 {V} _ _.
Arguments onSuccess2 {V} _.
Arguments onError2 {V} _ _.

Definition mutateAsync {V} (m : Mutation2 V) (variables : V) : M2 unit :=
  fun s =>
  match mutationFn2 m variables s with
  | (Return _, s') => (Return tt, snd (onSuccess2 m s'))
  | (Throw e, s') => (Throw e, snd (onError2 m e s'))
  end.

Definition mutate2 {V} (m : Mutation2 V) (variables : V) : M2 unit :=
  fun s => (Return tt, snd (mutateAsync m variables s)).

(** *** useDriverOrders: assignOrderToDriver *)

Definition assignOrderToDriver_mutationFn (v : string * string) : M2 unit :=
  let '(order, driver) := v in
  existingAssignment <~
    await_single (supabase.from OrderAssignment
                  |> supabase.select ["id"] []
                  |> supabase.eq "order_id" order) ;;
  match existingAssignment with
  | Success _ =>
      assigned_at <~ lift toISOString_now ;;
      response <~
        update_where OrderAssignment
          [("driver_id", J_text driver); ("assigned_at", J_text assigned_at)]
          [F_eq "order_id" order] ;;
      match response with
      | Failure error => throw2 error
      | Success _ => ret2 tt
      end
  | Failure _ =>
      assigned_at <~ lift toISOString_now ;;
      response <~
        insert OrderAssignment
          [("order_id", J_text order); ("driver_id", J_text driver);
           ("assigned_at", J_text assigned_at)] ;;
      match response with
      | Failure error => throw2 error
      | Success _ => ret2 tt
      end
  end.

Definition assignOrderToDriver : Mutation2 (string * string) := {|
  mutationFn2 := assignOrderToDriver_mutationFn;
  onSuccess2 :=
    lift (invalidateQueries ["driver-orders"]) ~;;
    lift (invalidateQueries ["available-orders"]) ~;;
    lift (toast (toast_success "Pedido asignado correctamente"));
  onError2 error :=
    lift (toast (toast_error ("Error al asignar pedido: " +:+ message error)))
  |}.

(** *** The delivery request card *)

Definition acceptOrder_mutationFn (request : Order) (driver : string)
    (_ : unit) : M2 unit :=
  assigned_at <~ lift toISOString_now ;;
  assignment <~
    insert OrderAssignment
      [("order_id", J_text (o_id request)); ("driver_id", J_text driver);
       ("assigned_at", J_text assigned_at);
       ("assignment_type", J_text "delivery")] ;;
  match assignment with
  | Failure assignmentError => throw2 assignmentError
  | Success _ =>
      updated_at <~ lift toISOString_now ;;
      updated <~
        lift (await schema
                (supabase.from Order
                 |> supabase.update [("status", "confirmed");
                                     ("updated_at", updated_at)]
                 |> supabase.eq "id" (o_id request))) ;;
      match updated with
      | Failure orderError => throw2 orderError
      | Success _ =>
          notification <~
            insert DriverNotification
              [("driver_id", J_text driver);
               ("order_id", J_text (o_id request));
               ("notification_type", J_text "order_accepted");
               ("title", J_text "Pedido Aceptado");
               ("message",
                J_text ("Has aceptado el pedido #"
                        +:+ slice_last 8 (o_id request)));
               ("is_read", J_flag false)] ;;
          match notification with
          | Failure notificationError => throw2 notificationError
          | Success _ => ret2 tt
          end
      end
  end.

Definition acceptOrder (request : Order) (driver : string)
    : Mutation2 unit := {|
  mutationFn2 := acceptOrder_mutationFn request driver;
  onSuccess2 :=
    lift (invalidateQueries ["available-orders"]) ~;;
    lift (invalidateQueries ["driver-orders"]) ~;;
    lift (toast (toast_success "Pedido aceptado exitosamente"));
  onError2 error := lift (toast (toast_error "Error al aceptar el pedido")) |}.

Definition rejectOrder_mutationFn (request : Order) (driver : string)
    (_ : unit) : M2 unit :=
  responded_at <~ lift toISOString_now ;;
  response <~
    insert DriverNotification
      [("driver_id", J_text driver);
       ("order_id", J_text (o_id request));
       ("notification_type", J_text "order_declined");
       ("title", J_text "Pedido Rechazado");
       ("message",
        J_text ("Has rechazado el pedido #"
                +:+ slice_last 8 (o_id request)));
       ("response", J_text "rejected");
       ("is_read", J_flag true);
       ("responded_at", J_text responded_at)] ;;
  match response with
  | Failure error => throw2 error
  | Success _ => ret2 tt
  end.

Definition rejectOrder (request : Order) (driver : string)
    : Mutation2 unit := {|
  mutationFn2 := rejectOrder_mutationFn request driver;
  onSuccess2 :=
    lift (invalidateQueries ["available-orders"]) ~;;
    lift (toast (toast_success "Pedido rechazado"));
  onError2 error := lift (toast (toast_error "Error al rechazar el pedido")) |}.

Definition setIsAccepting (b : bool) : M2 unit := fun '(r, w) =>
  (Return tt,
   ({| driver_notifications := driver_notifications r; serial := serial r;
       journal := journal r; isAccepting := b;
       isRejecting := isRejecting r |}, w)).

Definition setIsRejecting (b : bool) : M2 unit := fun '(r, w) =>
  (Return tt,
   ({| driver_notifications := driver_notifications r; serial := serial r;
       journal := journal r; isAccepting := isAccepting r;
       isRejecting := b |}, w)).

Definition handleAccept (request : Order) (driver : string) : M2 unit :=
  setIsAccepting true ~;;
  finally (mutateAsync (acceptOrder request driver) tt)
          (setIsAccepting false).

Definition handleReject (request : Order) (driver : string) : M2 unit :=
  setIsRejecting true ~;;
  finally (mutateAsync (rejectOrder request driver) tt)
          (setIsRejecting false).

(** Whether the two buttons of the card are disabled. *)
Definition buttons_disabled (r : Rest) : bool :=
  isAccepting r || isRejecting r.

End Card.

(** [timeAgo], with [clock] what [Date.now()] reads and [created] what
    [new Date(dateString).getTime()] is for a date string that parses,
    both in whole milliseconds. *)
Definition timeAgo (clock created : Z) : string :=
  let diff := (clock - created)%Z in
  let minutes := (diff / 60000)%Z in      (* Math.floor(diff / 60000) *)
  if (minutes <? 1)%Z then "Hace menos de 1 min"
  else if (minutes <? 60)%Z then "Hace " +:+ pretty minutes +:+ " min"
  else
    let hours := (minutes / 60)%Z in      (* Math.floor(minutes / 60) *)
    "Hace " +:+ pretty hours +:+ "h " +:+ pretty (Z.rem minutes 60) +:+ "m".

(** The row an accepted or newly assigned order gets, and what accepting
    does to a row of [orders]. *)
Definition new_assignment (id order driver t : string) : OrderAssignment :=
  {| a_id := id; a_order_id := order; a_driver_id := driver;
     a_assigned_at := t; a_picked_up_at := None; a_delivered_at := None |}.

Definition confirmed_at (order t : string) (o : Order) : Order :=
  if bool_decide (o_id o = order)
  then {| o_id := o_id o; o_status := "confirmed"; o_notes := o_notes o;
          o_delivery_address_id := o_delivery_address_id o;
          o_created_at := o_created_at o; o_updated_at := t |}
  else o.

(** What reassigning does to a row of [order_assignments]. *)
Definition reassigned (order driver t : string) (a : OrderAssignment)
    : OrderAssignment :=
  if bool_decide (a_order_id a = order)
  then {| a_id := a_id a; a_order_id := a_order_id a; a_driver_id := driver;
          a_assigned_at := t; a_picked_up_at := a_picked_up_at a;
          a_delivered_at := a_delivered_at a |}
  else a.

(** A world of the card in which every remote call is carried out. *)
Definition card_world (d : DB) (clock : string) : Rest * World :=
  (nothing_yet, faithful d clock).

(** The rows of [order_assignments] that refer to an order. *)
Definition assignments_of (order : string) (d : DB) : list OrderAssignment :=
  List.filter (fun a => bool_decide (a_order_id a = order))
    (order_assignments d).

(** ** Remote calls *)

Section Calls.
Context (schema : Schema).
Context {Row : Type} `{T : Table Row}.

Lemma await_failure (q : Query Row) (w : World) (e : PostgrestError) :
  next_fault w = Some e ->
  await schema q w
  = (Return (Failure e), answered w (db w) (request q) (Some e)).
Proof.
  unfold next_fault, fault_at, await.
  destruct (faults w) as [|[e'|] fs]; intros E; try discriminate.
  by inversion E.
Qed.

Lemma await_success (q : Query Row) (w : World) :
  next_fault w = None ->
  await schema q w
  = (Return (Success (fst (execute schema (request q) (db w)))),
     answered w (snd (execute schema (request q) (db w))) (request q) None).
Proof.
  unfold next_fault, fault_at, await.
  destruct (faults w) as [|[e'|] fs]; intros E; try discriminate;
    by destruct (execute schema (request q) (db w)).
Qed.

(** A select leaves the store as it is. *)
Lemma execute_select_db (q : Request) (d : DB) cols embeds :
  r_verb q = V_select cols embeds ->
  snd (execute schema q d) = d.
Proof. unfold execute. by intros ->. Qed.

(** The rows a select answers with are rows of the table that pass every
    filter of the request. *)
Lemma execute_select_rows (q : Request) (d : DB) cols embeds (r : Row) :
  r_verb q = V_select cols embeds ->
  r ∈ fst (execute schema q d) <->
  r ∈ rows d /\ matches schema d embeds (r_filters q) r = true.
Proof.
  unfold execute. intros ->. simpl.
  assert (r ∈ ordered (r_order q)
            (List.filter (matches schema d embeds (r_filters q)) (rows d))
          <-> r ∈ List.filter (matches schema d embeds (r_filters q)) (rows d))
    as ->.
  { unfold ordered. destruct (r_order q) as [[c asc]|]; [|done].
    by rewrite merge_sort_Permutation. }
  by rewrite !list_elem_of_In, filter_In.
Qed.

Lemma matches_filter (d : DB) embeds fs (f : Filter) (r : Row) :
  matches schema d embeds fs r = true -> f ∈ fs ->
  keeps schema d f r = true.
Proof.
  unfold matches. intros [_ H]%andb_true_iff Hf.
  rewrite forallb_forall in H. by apply H, list_elem_of_In.
Qed.
End Calls.

(** ** The status update *)

Section Status_update.
Context (schema : Schema).

Lemma execute_orders_write (v : StatusVariables) (t : string) (d : DB) :
  execute schema (Row := Order) (orders_write v t) d
  = ([], {| orders := map (with_status v t) (orders d);
            order_assignments := order_assignments d |}).
Proof.
  unfold execute. simpl. do 2 f_equal.
  apply map_ext. intros o.
  unfold matches, with_status. simpl.
  by destruct (bool_decide (o_id o = orderId v)).
Qed.

Lemma execute_assignment_write (v : StatusVariables) (u : AssignmentUpdate)
    (d : DB) :
  execute schema (Row := OrderAssignment) (assignment_write v u) d
  = ([], {| orders := orders d;
            order_assignments := map (with_times v u) (order_assignments d) |}).
Proof.
  unfold execute. simpl. do 2 f_equal.
  apply map_ext. intros a.
  unfold matches, with_times. simpl.
  destruct (bool_decide (a_order_id a = orderId v)); [|done].
  destruct u as [[p|] [dl|]], a; reflexivity.
Qed.

(** The status update, call by call. *)
Lemma updateOrderStatus_mutationFn_run (v : StatusVariables) (w : World) :
  updateOrderStatus_mutationFn schema v w
  = let q1 := orders_write v (now w) in
    match next_fault w with
    | Some e => (Throw e, answered w (db w) q1 (Some e))
    | None =>
        let w1 :=
          answered w
            {| orders := map (with_status v (now w)) (orders (db w));
               order_assignments := order_assignments (db w) |} q1 None in
        match assignmentUpdate v with
        | None => (Return tt, w1)
        | Some u =>
            let q2 := assignment_write v u in
            match next_fault w1 with
            | Some e => (Throw e, answered w1 (db w1) q2 (Some e))
            | None =>
                (Return tt,
                 answered w1
                   {| orders := orders (db w1);
                      order_assignments :=
                        map (with_times v u) (order_assignments (db w1)) |}
                   q2 None)
            end
        end
    end.
Proof.
  unfold updateOrderStatus_mutationFn, bind, toISOString_now. simpl.
  set (q1 := supabase.eq "id" (orderId v) _).
  assert (request q1 = orders_write v (now w)) as Q1 by reflexivity.
  destruct (next_fault w) as [e|] eqn:F.
  - by rewrite (await_failure schema q1 w e F), Q1.
  - rewrite (await_success schema q1 w F), Q1, execute_orders_write. simpl.
    destruct (assignmentUpdate v) as [u|]; [|done].
    set (w1 := answered w _ _ None).
    set (q2 := supabase.eq "order_id" (orderId v) _).
    assert (request q2 = assignment_write v u) as Q2 by reflexivity.
    destruct (next_fault w1) as [e|] eqn:F1.
    + by rewrite (await_failure schema q2 w1 e F1), Q2.
    + by rewrite (await_success schema q2 w1 F1), Q2,
        execute_assignment_write.
Qed.

Lemma fault_after_call (w : World) (d : DB) (q : Request)
    (e : option PostgrestError) (n : nat) :
  fault_at n (answered w d q e) = fault_at (S n) w.
Proof.
  unfold fault_at. simpl. by destruct (faults w).
Qed.

Lemma updateOrderStatus_issued (v : StatusVariables) (w : World) :
  issued (updateOrderStatus_mutationFn schema v) w
  = match fault_at 0 w with
    | Some e => [(orders_write v (now w), Some e)]
    | None =>
        (orders_write v (now w), None) ::
        match assignmentUpdate v with
        | Some u => [(assignment_write v u, fault_at 1 w)]
        | None => []
        end
    end.
Proof.
  unfold issued. rewrite updateOrderStatus_mutationFn_run.
  unfold next_fault. cbv zeta. rewrite fault_after_call.
  destruct (fault_at 0 w) as [e|]; simpl.
  { by rewrite drop_app_length. }
  destruct (assignmentUpdate v) as [u|]; simpl.
  2: { by rewrite drop_app_length. }
  destruct (fault_at 1 w) as [e|]; simpl;
    by rewrite <- app_assoc, drop_app_length.
Qed.

Lemma updateOrderStatus_completion (v : StatusVariables) (w : World) :
  fst (updateOrderStatus_mutationFn schema v w)
  = match fault_at 0 w, assignmentUpdate v, fault_at 1 w with
    | Some e, _, _ => Throw e
    | None, Some _, Some e => Throw e
    | None, _, _ => Return tt
    end.
Proof.
  rewrite updateOrderStatus_mutationFn_run.
  unfold next_fault. cbv zeta. rewrite fault_after_call.
  destruct (fault_at 0 w) as [e|]; [done|].
  destruct (assignmentUpdate v) as [u|]; [|done].
  by destruct (fault_at 1 w).
Qed.

Lemma updateOrderStatus_store (v : StatusVariables) (w : World) :
  db (snd (updateOrderStatus_mutationFn schema v w))
  = match fault_at 0 w with
    | Some _ => db w
    | None =>
        {| orders := map (with_status v (now w)) (orders (db w));
           order_assignments :=
             match assignmentUpdate v, fault_at 1 w with
             | Some u, None =>
                 map (with_times v u) (order_assignments (db w))
             | _, _ => order_assignments (db w)
             end |}
    end.
Proof.
  rewrite updateOrderStatus_mutationFn_run.
  unfold next_fault. cbv zeta. rewrite fault_after_call.
  destruct (fault_at 0 w) as [e|]; [done|].
  destruct (assignmentUpdate v) as [u|]; [|done].
  by destruct (fault_at 1 w).
Qed.

(** What [mutate] tells the UI layer, by how [mutationFn] completed. *)
Lemma updateOrderStatus_mutate_told (v : StatusVariables) (w : World) :
  let m := mutate (updateOrderStatus schema) v in
  match fst (updateOrderStatus_mutationFn schema v w) with
  | Throw e =>
      notices m w
      = [toast_error ("Error al actualizar pedido: " +:+ message e)]
      /\ invalidations m w = []
  | Return _ =>
      notices m w = [toast_success "Estado del pedido actualizado"]
      /\ invalidations m w = [["driver-orders"]; ["available-orders"]]
  end.
Proof.
  unfold notices, invalidations, mutate. simpl.
  rewrite updateOrderStatus_mutationFn_run.
  unfold next_fault. cbv zeta. rewrite fault_after_call.
  destruct (fault_at 0 w) as [e|]; simpl.
  { by rewrite drop_app_length, drop_all. }
  destruct (assignmentUpdate v) as [u|]; simpl.
  2: { by rewrite <- app_assoc, !drop_app_length. }
  destruct (fault_at 1 w) as [e|]; simpl.
  - by rewrite drop_app_length, drop_all.
  - by rewrite <- app_assoc, !drop_app_length.
Qed.
End Status_update.

(** ** Properties of the status update *)

(** Claim C1, as it holds: for every input [{orderId, status,
    assignmentUpdate}], whatever the backend answers, the requests the
    mutation sends are first the write of [{status, updated_at}] to
    [orders] where [id = orderId], and then the write of the given
    assignment update to [order_assignments] where [order_id = orderId]
    exactly when an assignment update was given and the [orders] write
    came back without an error; nothing else is sent. *)
Theorem status_update_payloads (schema : Schema) (v : StatusVariables)
    (w : World) :
  map fst (issued (updateOrderStatus_mutationFn schema v) w)
  = orders_write v (now w) ::
    match assignmentUpdate v, fault_at 0 w with
    | Some u, None => [assignment_write v u]
    | _, _ => []
    end.
Proof.
  rewrite updateOrderStatus_issued.
  destruct (fault_at 0 w) as [e|], (assignmentUpdate v) as [u|]; reflexivity.
Qed.

(** Claim C1, as worded, fails: with an assignment update given and the
    [orders] write answered by an error, nothing is sent to
    [order_assignments]. *)
Lemma status_update_payloads_regardless_fails :
  let w := failing sample_db "2024-05-01T13:00:00.000Z" [Some timeout_error] in
  ~ status_payloads_regardless sample_variables (now w)
      (map fst (issued (updateOrderStatus_mutationFn permissive
                          sample_variables) w)).
Proof.
  intros w (_ & H & _).
  specialize (H _ eq_refl).
  rewrite updateOrderStatus_issued in H.
  apply list_elem_of_singleton in H. discriminate H.
Qed.

(** Claim C7: the mutation function throws exactly when one of the remote
    calls it made came back with an error; when it throws, [mutate] shows
    the error toast with the error's message and invalidates nothing; when
    it returns, [mutate] shows the success toast and invalidates the
    [driver-orders] and [available-orders] queries. *)
Theorem status_update_outcome (schema : Schema) (v : StatusVariables)
    (w : World) :
  let raised := fst (updateOrderStatus_mutationFn schema v w) in
  let answers := issued (updateOrderStatus_mutationFn schema v) w in
  let told := mutate (updateOrderStatus schema) v in
  ((exists e, raised = Throw e) <-> (exists q e, (q, Some e) ∈ answers))
  /\ match raised with
     | Throw e =>
         (exists q, (q, Some e) ∈ answers)
         /\ notices told w
            = [toast_error ("Error al actualizar pedido: " +:+ message e)]
         /\ invalidations told w = []
     | Return _ =>
         notices told w = [toast_success "Estado del pedido actualizado"]
         /\ invalidations told w = [["driver-orders"]; ["available-orders"]]
     end.
Proof.
  intros raised answers told.
  pose proof (updateOrderStatus_mutate_told schema v w) as Told.
  fold raised told in Told. cbv zeta in Told.
  assert (match raised with
          | Throw e => exists q, (q, Some e) ∈ answers
          | Return _ => forall q e, (q, Some e) ∉ answers
          end) as Answers.
  { subst raised answers.
    rewrite updateOrderStatus_completion, updateOrderStatus_issued.
    destruct (fault_at 0 w) as [e|].
    { eexists. apply list_elem_of_singleton. reflexivity. }
    destruct (assignmentUpdate v) as [u|].
    - destruct (fault_at 1 w) as [e|].
      + eexists. apply elem_of_cons. right.
        apply list_elem_of_singleton. reflexivity.
      + intros q e [H|H%list_elem_of_singleton]%elem_of_cons; discriminate.
    - intros q e H%list_elem_of_singleton. discriminate. }
  split.
  - destruct raised as [[]|e].
    + split; [intros [e ?]; discriminate|].
      intros (q & e & H). by apply Answers in H.
    + split; [|by eauto]. intros _. destruct Answers as [q H]. eauto.
  - destruct raised as [[]|e]; [done|]. by split.
Qed.

(** Claim C10: the [orders] write is sent first and only an
    [order_assignments] write may follow it; if the [orders] write comes
    back with an error, the mutation throws that error, sends nothing more
    and the store (so the [order_assignments] table) is as it was; if the
    [orders] write is carried out and the assignment write then comes back
    with an error, the mutation throws that error having sent just these
    two writes, and the [orders] table keeps the new status and timestamp
    while [order_assignments] is as it was. *)
Theorem status_update_writes_in_turn (schema : Schema) (v : StatusVariables)
    (w : World) :
  let run := updateOrderStatus_mutationFn schema v w in
  let sent := map fst (issued (updateOrderStatus_mutationFn schema v) w) in
  (exists rest,
     sent = orders_write v (now w) :: rest
     /\ forall q, q ∈ rest -> r_table q = "order_assignments")
  /\ (forall e, fault_at 0 w = Some e ->
      fst run = Throw e
      /\ sent = [orders_write v (now w)]
      /\ db (snd run) = db w)
  /\ (forall u e,
      fault_at 0 w = None -> assignmentUpdate v = Some u ->
      fault_at 1 w = Some e ->
      fst run = Throw e
      /\ sent = [orders_write v (now w); assignment_write v u]
      /\ orders (db (snd run))
         = map (with_status v (now w)) (orders (db w))
      /\ order_assignments (db (snd run)) = order_assignments (db w)).
Proof.
  intros run sent. subst run sent.
  rewrite updateOrderStatus_issued, updateOrderStatus_completion,
    updateOrderStatus_store.
  split; [|split].
  - destruct (fault_at 0 w) as [e|]; simpl.
    { exists []. split; [done|]. by intros q ?%elem_of_nil. }
    eexists. split; [reflexivity|].
    intros q. destruct (assignmentUpdate v) as [u|]; simpl.
    + by intros ->%list_elem_of_singleton.
    + by intros ?%elem_of_nil.
  - by intros e ->.
  - by intros u e -> -> ->.
Qed.

Lemma status_update_writes_in_turn_witness :
  let w := failing sample_db "2024-05-01T13:00:00.000Z"
             [None; Some timeout_error] in
  let run := updateOrderStatus_mutationFn permissive sample_variables w in
  fst run = Throw timeout_error
  /\ map o_status (orders (db (snd run))) = ["pending"; "ready"; "delivered"]
  /\ order_assignments (db (snd run)) = order_assignments sample_db.
Proof.
  intros w run.
  destruct (status_update_writes_in_turn permissive sample_variables w)
    as (_ & _ & H).
  destruct (H _ timeout_error eq_refl eq_refl eq_refl) as (R & _ & O & A).
  split; [exact R|]. split; [|exact A].
  subst run. rewrite O. reflexivity.
Defined.

(** ** The available-orders queries in a world without faults *)

Section Queries.
Context (schema : Schema).

Lemma unassigned_ids (d : DB) (o : Order) :
  unassigned d o <-> o_id o ∉ map a_order_id (order_assignments d).
Proof.
  unfold unassigned. split.
  - intros H (a & E & Ha)%list_elem_of_fmap. by apply (H a).
  - intros H a Ha E. apply H, list_elem_of_fmap. eauto.
Qed.

(** The lookup of one order's assignments answers with no rows exactly
    when the order has none. *)
Lemma lookup_empty (d : DB) (o : Order) :
  length (fst (execute schema (Row := OrderAssignment)
                 (request (supabase.from OrderAssignment
                           |> supabase.select ["id"] []
                           |> supabase.eq "order_id" (o_id o))) d)) = 0
  <-> unassigned d o.
Proof.
  set (q := request _).
  assert (forall a, a ∈ fst (execute schema (Row := OrderAssignment) q d)
                    <-> a ∈ order_assignments d /\ a_order_id a = o_id o)
    as Rows.
  { intros a. rewrite (execute_select_rows schema q d ["id"] []) by done.
    unfold matches. simpl. rewrite andb_true_r, bool_decide_eq_true. done. }
  destruct (fst (execute schema q d)) as [|a l] eqn:E; simpl.
  - split; [|done]. intros _ a Ha Eq.
    by apply (elem_of_nil a), Rows.
  - split; [done|]. intros U. exfalso.
    destruct (proj1 (Rows a)) as [Ha Eq]; [by left|].
    by apply (U a).
Qed.

Lemma filterOrders_faithful (data acc : list Order) (w : World) :
  faults w = [] ->
  exists l w',
    filterOrders schema data acc w = (Return l, w')
    /\ db w' = db w /\ faults w' = []
    /\ forall o, o ∈ l <-> o ∈ acc \/ (o ∈ data /\ unassigned (db w) o).
Proof.
  revert acc w. induction data as [|o data IH]; intros acc w F.
  { exists acc, w. repeat split; try done.
    - by left.
    - intros [?|[?%elem_of_nil _]]; done. }
  set (q := supabase.from OrderAssignment
            |> supabase.select ["id"] []
            |> supabase.eq "order_id" (o_id o)).
  assert (await schema q w
          = (Return (Success (fst (execute schema (request q) (db w)))),
             answered w (db w) (request q) None)) as Await.
  { assert (next_fault w = None) as N
      by (unfold next_fault, fault_at; by rewrite F).
    by rewrite (await_success schema q w N). }
  set (w1 := answered w (db w) (request q) None) in Await.
  pose proof (lookup_empty (db w) o) as L. fold q in L.
  set (push := bool_decide
                 (length (fst (execute schema (request q) (db w))) = 0)).
  destruct (IH (if push then acc ++ [o] else acc) w1) as
    (l & w' & Run & D & F' & In_l).
  { subst w1. simpl. by rewrite F. }
  exists l, w'. split.
  { simpl. unfold bind. fold q. rewrite Await. exact Run. }
  split; [done|]. split; [done|].
  intros x. rewrite In_l, elem_of_cons. clear In_l Run.
  change (db w1) with (db w).
  subst push. case_bool_decide as P.
  - apply L in P. rewrite elem_of_app, list_elem_of_singleton.
    split.
    + intros [[?| ->]|[? ?]]; eauto.
    + intros [?|[[->|?] ?]]; eauto.
  - rewrite L in P. split.
    + intros [?|[? ?]]; eauto.
    + intros [?|[[->|?] U]]; eauto. done.
Qed.

(** [useAvailableOrders]: it answers, and only with pending orders of the
    store that have no assignment. *)
Lemma useAvailableOrders_faithful (driverId : option string) (d : DB)
    (clock : string) :
  exists l,
    fst (useAvailableOrders_queryFn schema driverId (faithful d clock))
    = Return l
    /\ forall o, o ∈ l ->
         o ∈ orders d /\ o_status o = "pending" /\ unassigned d o.
Proof.
  unfold useAvailableOrders_queryFn.
  destruct (truthy driverId); cbn [negb].
  2: { exists []. split; [done|]. by intros o ?%elem_of_nil. }
  unfold bind. cbv beta.
  rewrite (await_success schema _ (faithful d clock) eq_refl).
  set (q := request _).
  change (snd (execute schema q (db (faithful d clock)))) with d.
  change (db (faithful d clock)) with d.
  set (w1 := answered _ d q None).
  destruct (filterOrders_faithful (fst (execute schema q d)) [] w1 eq_refl)
    as (l & w' & Run & _ & _ & In_l).
  exists l. rewrite Run. split; [done|].
  intros o [?%elem_of_nil|[Data U]]%In_l; [done|].
  apply (execute_select_rows schema q d _ _ o eq_refl) in Data
    as [Rows Matches].
  repeat split; [exact Rows| |exact U].
  apply (matches_filter schema d _ _ (F_eq "status" "pending")) in Matches.
  - simpl in Matches. by apply bool_decide_eq_true in Matches.
  - subst q. simpl. apply elem_of_cons. by left.
Qed.

Lemma select_all_assignments (d : DB) :
  fst (execute schema (Row := OrderAssignment)
         (request (supabase.from OrderAssignment
                   |> supabase.select ["order_id"] [])) d)
  = order_assignments d.
Proof.
  unfold execute. simpl.
  induction (order_assignments d) as [|a l IH]; [done|].
  simpl. by rewrite IH.
Qed.

(** The available orders of [useDriverOrders]: it answers, and exactly
    with the ready orders of the store that have no assignment. *)
Lemma availableOrders_faithful (d : DB) (clock : string) :
  exists l,
    fst (availableOrders_queryFn schema (faithful d clock)) = Return l
    /\ forall o, o ∈ l <->
         o ∈ orders d /\ o_status o = "ready" /\ unassigned d o.
Proof.
  unfold availableOrders_queryFn, bind. cbv beta.
  rewrite (await_success schema _ (faithful d clock) eq_refl).
  set (q0 := request _).
  change (snd (execute schema q0 (db (faithful d clock)))) with d.
  change (db (faithful d clock)) with d.
  subst q0. rewrite select_all_assignments.
  set (w1 := answered _ d _ None).
  set (ids := map a_order_id (order_assignments d)).
  set (query := if bool_decide (0 < length ids) then _ else _).
  rewrite (await_success schema query w1 eq_refl).
  eexists. split; [reflexivity|].
  intros o. simpl db.
  rewrite unassigned_ids. fold ids.
  subst query. case_bool_decide as P.
  - set (q := request _).
    rewrite (execute_select_rows schema q d _ _ o eq_refl).
    unfold matches. simpl. unfold member.
    rewrite andb_true_r, andb_true_iff, negb_true_iff,
      bool_decide_eq_true, bool_decide_eq_false.
    done.
  - set (q := request _).
    rewrite (execute_select_rows schema q d _ _ o eq_refl).
    unfold matches. simpl.
    rewrite andb_true_r, bool_decide_eq_true.
    destruct ids; [|simpl in P; lia].
    split; [intros [? ?]|intros (? & ? & ?)]; repeat split; try done.
    by intros ?%elem_of_nil.
Qed.
End Queries.

(** ** Strings *)

Lemma append_String (c : Ascii.ascii) (p q : string) :
  String c p +:+ q = String c (p +:+ q).
Proof. reflexivity. Qed.

Lemma prefix_append (p s : string) :
  String.prefix p s = true <-> exists post, s = p +:+ post.
Proof.
  revert s. induction p as [|c p IH]; intros s.
  { destruct s; simpl; split; eauto. }
  destruct s as [|c' s]; simpl.
  { split; [done|]. by intros [post ?]. }
  destruct (Ascii.ascii_dec c c') as [->|Ne].
  - rewrite IH. split; intros [post E]; exists post;
      rewrite append_String in *; congruence.
  - split; [done|]. intros [post E].
    rewrite append_String in E. congruence.
Qed.

(** [includes] finds [sub] exactly when the string is some text, then
    [sub], then some text. *)
Lemma includes_spec (s sub : string) :
  includes s sub = true <-> exists pre post, s = pre +:+ sub +:+ post.
Proof.
  induction s as [|c s IH].
  - change (includes "" sub) with (String.prefix sub "" || false).
    rewrite orb_false_r, prefix_append. split.
    + intros [post E]. by exists "", post.
    + intros ([|? ?] & post & E); [by exists post|discriminate].
  - change (includes (String c s) sub)
      with (String.prefix sub (String c s) || includes s sub).
    rewrite orb_true_iff, IH, prefix_append. split.
    + intros [[post E]|(pre & post & E)].
      * by exists "", post.
      * exists (String c pre), post. by rewrite append_String, E.
    + intros ([|c' pre] & post & E).
      * left. by exists post.
      * right. exists pre, post. rewrite append_String in E. congruence.
Qed.

Lemma on_insert_mesa (notes : option string) :
  match notes with
  | Some n => includes n "Mesa:"
  | None => false
  end = true <-> mentions "Mesa:" notes.
Proof.
  unfold mentions. destruct notes as [n|].
  - rewrite includes_spec. split.
    + intros (pre & post & E). by exists n, pre, post.
    + intros (n' & pre & post & [= <-] & E). by exists pre, post.
  - split; [done|]. by intros (? & ? & ? & ? & _).
Qed.

(** ** Properties of the queries and of the change feed *)

(** Claim C2: there is a state of the store (one pending order and two
    ready ones, one of them assigned) on which, whatever the backend's
    schema makes of the joins and of the array filter, both queries answer
    and the available orders of [useDriverOrders] contain an order that
    those of [useAvailableOrders] do not. *)
Theorem available_orders_disagree :
  exists d : DB,
    forall (schema : Schema) (driverId : option string) (clock : string),
    exists l1 l2,
      fst (useAvailableOrders_queryFn schema driverId (faithful d clock))
      = Return l1
      /\ fst (availableOrders_queryFn schema (faithful d clock)) = Return l2
      /\ exists o, o ∈ l2 /\ o ∉ l1.
Proof.
  exists sample_db. intros schema driverId clock.
  destruct (useAvailableOrders_faithful schema driverId sample_db clock)
    as (l1 & Run1 & Sound1).
  destruct (availableOrders_faithful schema sample_db clock)
    as (l2 & Run2 & Exact2).
  exists l1, l2. split; [exact Run1|]. split; [exact Run2|].
  exists (sample_order "o2" "ready"). split.
  - apply Exact2. split; [|split; [reflexivity|]].
    + apply elem_of_cons. right. by left.
    + intros a ->%list_elem_of_singleton. discriminate.
  - intros (_ & Pending & _)%Sound1. discriminate Pending.
Qed.

(** Claim C8: for the channel [useAvailableOrders] subscribes to and
    every reported change of a row of [orders]: an insert invalidates the
    [available-orders] query exactly when the new row has status
    [pending] and its notes do not contain [Mesa:]; an update invalidates
    it, whatever the row. *)
Theorem change_feed_invalidation (driverId : option string) (ch : Channel)
    (row : Order) (w : World) :
  useAvailableOrders_subscription driverId = Some ch ->
  (["available-orders"] ∈ invalidations (receive ch (change INSERT row)) w
   <-> o_status row = "pending" /\ ~ mentions "Mesa:" (o_notes row))
  /\ invalidations (receive ch (change UPDATE row)) w
     = [["available-orders"]].
Proof.
  unfold useAvailableOrders_subscription.
  destruct (truthy driverId); [|discriminate]. intros [= <-].
  split.
  - unfold invalidations, receive, on_insert. simpl.
    change (listens _ _) with true. unfold bind. cbv iota beta.
    pose proof (on_insert_mesa (o_notes row)) as Mesa.
    destruct (match o_notes row with
              | Some n => includes n "Mesa:" | None => false end).
    + rewrite andb_false_r. simpl. rewrite drop_all. split.
      * by intros ?%elem_of_nil.
      * intros [_ N]. destruct N. by apply Mesa.
    + rewrite andb_true_r. case_bool_decide as P; simpl.
      * rewrite drop_app_length. split; [|by intros; left].
        intros _. split; [done|]. by intros ?%Mesa.
      * rewrite drop_all. split; [by intros ?%elem_of_nil|].
        by intros [? _].
  - unfold invalidations. simpl. by rewrite drop_app_length.
Qed.

Lemma change_feed_invalidation_witness :
  exists ch,
    useAvailableOrders_subscription (Some "d1") = Some ch
    /\ ["available-orders"]
       ∈ invalidations (receive ch (change INSERT (sample_order "o1" "pending")))
           (faithful sample_db "2024-05-01T13:00:00.000Z").
Proof.
  eexists. split; [reflexivity|].
  apply (change_feed_invalidation (Some "d1") _ _ _ eq_refl).
  split; [reflexivity|].
  intros (n & _ & _ & N & _). discriminate N.
Defined.

(** Claim C9: without a driver id the query function of
    [useAvailableOrders] and the assigned-orders query function of
    [useDriverOrders] return the empty list and leave the world as it was,
    so no remote call is made, and the subscription effect of
    [useAvailableOrders] subscribes to nothing. *)
Theorem no_driver_no_calls (schema : Schema) (w : World) :
  useAvailableOrders_queryFn schema None w = (Return [], w)
  /\ issued (useAvailableOrders_queryFn schema None) w = []
  /\ assignedOrders_queryFn schema None w = (Return [], w)
  /\ issued (assignedOrders_queryFn schema None) w = []
  /\ useAvailableOrders_subscription None = None.
Proof.
  unfold issued. simpl. by rewrite drop_all.
Qed.

(** ** Order of creation *)

Lemma string_compare_trans (s1 s2 s3 : string) :
  String.compare s1 s2 <> Gt -> String.compare s2 s3 <> Gt ->
  String.compare s1 s3 <> Gt.
Proof.
  revert s2 s3. induction s1 as [|c1 s1 IH]; intros [|c2 s2] [|c3 s3];
    simpl; try done.
  unfold Ascii.compare.
  destruct (N.compare_spec (Ascii.N_of_ascii c1) (Ascii.N_of_ascii c2))
    as [E12|L12|G12]; [|intros _|done].
  - rewrite E12.
    destruct (N.compare_spec (Ascii.N_of_ascii c2) (Ascii.N_of_ascii c3));
      [apply IH|done|done].
  - destruct (N.compare_spec (Ascii.N_of_ascii c2) (Ascii.N_of_ascii c3))
      as [E23|L23|G23]; [|intros _|done].
    + rewrite <- E23. intros _.
      by destruct (N.compare_spec (Ascii.N_of_ascii c1)
                     (Ascii.N_of_ascii c2)); try lia.
    + by destruct (N.compare_spec (Ascii.N_of_ascii c1)
                     (Ascii.N_of_ascii c3)); try lia.
Qed.

#[local] Instance oldest_first_total : Total oldest_first.
Proof.
  intros a b. unfold oldest_first.
  destruct (String.leb_total (o_created_at a) (o_created_at b)) as [->| ->];
    [by left|by right].
Qed.

#[local] Instance oldest_first_trans : Transitive oldest_first.
Proof.
  intros a b c. unfold oldest_first, String.leb.
  pose proof (string_compare_trans (o_created_at a) (o_created_at b)
                (o_created_at c)) as T.
  destruct (String.compare (o_created_at a) (o_created_at b));
    destruct (String.compare (o_created_at b) (o_created_at c));
    destruct (String.compare (o_created_at a) (o_created_at c));
    try done; intros _ _; by destruct T.
Qed.

#[local] Instance newest_first_total : Total newest_first.
Proof. intros a b. apply (oldest_first_total b a). Qed.

#[local] Instance newest_first_trans : Transitive newest_first.
Proof. intros a b c H1 H2. by apply (oldest_first_trans c b a). Qed.

(** What the backend answers to a select on [orders] ordered by
    [created_at] is in that order. *)
Lemma execute_oldest_first (schema : Schema) (q : Request) (d : DB)
    cols embeds :
  r_verb q = V_select cols embeds -> r_order q = Some ("created_at", true) ->
  StronglySorted oldest_first (fst (execute schema (Row := Order) q d)).
Proof.
  unfold execute. intros -> O. simpl. unfold ordered. rewrite O.
  apply Sorted_StronglySorted; [apply _|].
  apply (Sorted_merge_sort oldest_first).
Qed.

Lemma execute_newest_first (schema : Schema) (q : Request) (d : DB)
    cols embeds :
  r_verb q = V_select cols embeds -> r_order q = Some ("created_at", false) ->
  StronglySorted newest_first (fst (execute schema (Row := Order) q d)).
Proof.
  unfold execute. intros -> O. simpl. unfold ordered. rewrite O.
  apply Sorted_StronglySorted; [apply _|].
  apply (Sorted_merge_sort newest_first).
Qed.

(** ** The queries, whatever the remote calls come back with *)

Section Queries_run.
Context (schema : Schema).

(** The loop of [useAvailableOrders], lookup by lookup. *)
Lemma filterOrders_run (data acc : list Order) (w : World) :
  exists l w' new,
    filterOrders schema data acc w = (Return (acc ++ l), w')
    /\ db w' = db w
    /\ calls w' = calls w ++ new
    /\ length new = length data
    /\ Forall (fun c => r_table (fst c) = "order_assignments") new
    /\ l `sublist_of` data
    /\ forall i o, data !! i = Some o ->
         is_Some (fault_at i w) \/ unassigned (db w) o -> o ∈ l.
Proof.
  revert acc w. induction data as [|o data IH]; intros acc w.
  { exists [], w, []. rewrite !app_nil_r. repeat split; done. }
  set (q := supabase.from OrderAssignment
            |> supabase.select ["id"] []
            |> supabase.eq "order_id" (o_id o)).
  pose proof (lookup_empty schema (db w) o) as L. fold q in L.
  assert (exists (push : bool) (e : option PostgrestError),
            await schema q w
            = (Return (if push
                       then match e with
                            | Some e => Failure e
                            | None => Success []
                            end
                       else Success (fst (execute schema (request q) (db w)))),
               answered w (db w) (request q) e)
            /\ (push = true <-> is_Some (fault_at 0 w) \/ unassigned (db w) o)
            /\ (push = false ->
                length (fst (execute schema (request q) (db w))) <> 0))
    as (push & e & Await & Push & Rows).
  { destruct (fault_at 0 w) as [e|] eqn:F.
    - exists true, (Some e). rewrite (await_failure schema q w e F).
      split; [done|]. split; [|done].
      split; [intros _; left; by eexists|done].
    - rewrite (await_success schema q w F).
      destruct (fst (execute schema (Row := OrderAssignment)
                       (request q) (db w))) as [|a rows] eqn:E.
      + exists true, None. split; [done|]. split; [|done].
        split; [|done]. intros _. right. by apply L.
      + exists false, None. split; [done|]. split; [|done].
        split; [done|]. intros [[? ?]|U]; [done|]. by apply L in U. }
  set (w1 := answered w (db w) (request q) e) in Await.
  destruct (IH (if push then acc ++ [o] else acc) w1)
    as (l & w' & new & Run & D & C & N & T & S & K).
  assert (filterOrders schema (o :: data) acc w
          = (Return ((if push then acc ++ [o] else acc) ++ l), w')) as Run'.
  { simpl. unfold bind. fold q. rewrite Await, <- Run. f_equal.
    destruct push; [by destruct e|].
    specialize (Rows eq_refl).
    by destruct (fst (execute schema (request q) (db w))). }
  exists (if push then o :: l else l), w', ((request q, e) :: new).
  split. { rewrite Run'. by destruct push; rewrite <- ?app_assoc. }
  split; [done|].
  split. { rewrite C. simpl. by rewrite <- app_assoc. }
  split. { simpl. by rewrite N. }
  split. { by constructor. }
  split. { destruct push; by constructor. }
  intros [|i] o' Lk Keep; simpl in Lk.
  - injection Lk as <-. apply Push in Keep. rewrite Keep. by left.
  - assert (o' ∈ l) as In_l.
    { apply (K i o' Lk). subst w1. rewrite fault_after_call. exact Keep. }
    destruct push; [by right|done].
Qed.
End Queries_run.

Section Available_orders_run.
Context (schema : Schema).

Lemma truthy_nonempty (driver : string) :
  driver <> "" -> truthy (Some driver) = true.
Proof. by destruct driver. Qed.

(** [useAvailableOrders] with a driver, call by call. *)
Lemma useAvailableOrders_run (driver : string) (w : World) :
  driver <> "" ->
  let run := useAvailableOrders_queryFn schema (Some driver) w in
  let made := issued (useAvailableOrders_queryFn schema (Some driver)) w in
  db (snd run) = db w
  /\ match fault_at 0 w with
     | Some e => fst run = Throw e /\ length made = 1
     | None =>
         exists data l,
           fst run = Return l
           /\ l `sublist_of` data
           /\ StronglySorted oldest_first data
           /\ Forall (fun o => o ∈ orders (db w) /\ o_status o = "pending"
                               /\ o_delivery_address_id o = None) data
           /\ length made = S (length data)
           /\ Forall (fun c => r_table (fst c) = "order_assignments")
                (tail made)
           /\ forall i o, data !! i = Some o ->
                is_Some (fault_at (S i) w) \/ unassigned (db w) o -> o ∈ l
     end.
Proof.
  intros Hd run made. subst run made.
  unfold issued, useAvailableOrders_queryFn.
  rewrite (truthy_nonempty driver Hd). cbn [negb]. unfold bind.
  set (q := supabase.order "created_at" true _).
  destruct (fault_at 0 w) as [e|] eqn:F.
  { rewrite (await_failure schema q w e F). simpl.
    by rewrite drop_app_length. }
  rewrite (await_success schema q w F).
  change (snd (execute schema (request q) (db w))) with (db w).
  set (data := fst (execute schema (request q) (db w))).
  set (w1 := answered w (db w) (request q) None).
  destruct (filterOrders_run schema data [] w1)
    as (l & w' & new & Run & D & C & N & T & S & K).
  rewrite Run. simpl. split; [by rewrite D|].
  exists data, l. split; [done|]. split; [done|].
  split.
  { by eapply (execute_oldest_first schema (request q) (db w)). }
  split.
  { apply Forall_forall. intros o Ho.
    apply (execute_select_rows schema (request q) (db w) _ _ o eq_refl)
      in Ho as [Rows Matches].
    split; [exact Rows|].
    pose proof (matches_filter schema (db w) _ _
                  (F_eq "status" "pending") o Matches) as St.
    pose proof (matches_filter schema (db w) _ _
                  (F_is_null "delivery_address_id") o Matches) as Ad.
    split.
    - assert (keeps schema (db w) (F_eq "status" "pending") o = true) as A.
      { apply St. subst q. simpl. apply elem_of_cons. by left. }
      simpl in A. by apply bool_decide_eq_true in A.
    - assert (keeps schema (db w) (F_is_null "delivery_address_id") o = true)
        as A.
      { apply Ad. subst q. simpl. apply elem_of_cons. right.
        apply elem_of_cons. by left. }
      simpl in A. by destruct (o_delivery_address_id o). }
  rewrite C. subst w1. simpl.
  rewrite <- app_assoc, drop_app_length. simpl.
  split; [by rewrite N|]. split; [done|].
  intros i o Lk Keep. apply (K i o Lk).
  by rewrite fault_after_call.
Qed.
End Available_orders_run.

Section Driver_orders_run.
Context (schema : Schema).

(** The available orders of [useDriverOrders], call by call. *)
Lemma availableOrders_run (w : World) :
  let run := availableOrders_queryFn schema w in
  let made := issued (availableOrders_queryFn schema) w in
  let ids := map a_order_id (order_assignments (db w)) in
  db (snd run) = db w
  /\ match fault_at 0 w with
     | Some e =>
         fst run = Throw e
         /\ map (fun c => r_table (fst c)) made = ["order_assignments"]
     | None =>
         map (fun c => (r_table (fst c), r_filters (fst c))) made
         = [("order_assignments", []);
            ("orders",
             F_eq "status" "ready" ::
             if bool_decide (0 < length ids)
             then [F_not_in "id" ids] else [])]
         /\ match fault_at 1 w with
            | Some e => fst run = Throw e
            | None =>
                exists l,
                  fst run = Return l
                  /\ StronglySorted newest_first l
                  /\ forall o, o ∈ l <->
                       o ∈ orders (db w) /\ o_status o = "ready"
                       /\ unassigned (db w) o
            end
     end.
Proof.
  intros run made ids. subst run made.
  unfold issued, availableOrders_queryFn, bind.
  set (q0 := supabase.select ["order_id"] [] _).
  destruct (fault_at 0 w) as [e|] eqn:F.
  { rewrite (await_failure schema q0 w e F). simpl.
    by rewrite drop_app_length. }
  rewrite (await_success schema q0 w F).
  change (snd (execute schema (request q0) (db w))) with (db w).
  subst q0. rewrite select_all_assignments. fold ids.
  set (w1 := answered w (db w) _ None).
  set (query := if bool_decide (0 < length ids) then _ else _).
  assert (r_table (request query) = "orders"
          /\ r_filters (request query)
             = F_eq "status" "ready" ::
               (if bool_decide (0 < length ids)
                then [F_not_in "id" ids] else [])
          /\ r_order (request query) = Some ("created_at", false)
          /\ exists cols embeds, r_verb (request query) = V_select cols embeds)
    as (Tb & Fs & Or & cols & embeds & Vb).
  { subst query. destruct (bool_decide (0 < length ids)); simpl;
      repeat split; eauto. }
  assert (fault_at 0 w1 = fault_at 1 w) as F1
    by (subst w1; apply fault_after_call).
  destruct (fault_at 1 w) as [e|] eqn:F1'.
  { rewrite (await_failure schema query w1 e F1). simpl.
    rewrite <- app_assoc, drop_app_length. simpl. by rewrite Tb, Fs. }
  rewrite (await_success schema query w1 F1).
  rewrite (execute_select_db schema (request query) (db w1) cols embeds Vb).
  simpl. rewrite <- app_assoc, drop_app_length. simpl. rewrite Tb, Fs.
  split; [done|]. split; [done|].
  eexists. split; [reflexivity|]. split.
  { by apply (execute_newest_first schema (request query) (db w) cols embeds). }
  intros o.
  rewrite (execute_select_rows schema (request query) (db w) cols embeds o Vb).
  rewrite unassigned_ids. fold ids.
  assert (matches schema (db w) embeds (r_filters (request query)) o
          = bool_decide (o_status o = "ready")
            && (if bool_decide (0 < length ids)
                then negb (member (o_id o) ids) else true)) as ->.
  { subst query. destruct (bool_decide (0 < length ids));
      injection Vb as <- <-; unfold matches; simpl;
      by rewrite ?andb_true_r. }
  rewrite andb_true_iff, bool_decide_eq_true.
  case_bool_decide as P.
  - unfold member. rewrite negb_true_iff, bool_decide_eq_false. done.
  - destruct ids; [|simpl in P; lia].
    split; [intros (? & ? & _)|intros (? & ? & _)]; repeat split; try done.
    by intros ?%elem_of_nil.
Qed.

(** The assigned orders of [useDriverOrders] with a driver: one call. *)
Lemma assignedOrders_run (driver : string) (w : World) :
  driver <> "" ->
  let run := assignedOrders_queryFn schema (Some driver) w in
  let made := issued (assignedOrders_queryFn schema (Some driver)) w in
  db (snd run) = db w
  /\ map (fun c => r_table (fst c)) made = ["orders"]
  /\ match fault_at 0 w with
     | Some e => fst run = Throw e
     | None =>
         exists l,
           fst run = Return l
           /\ StronglySorted newest_first l
           /\ Forall (fun o => o ∈ orders (db w) /\ in_progress o) l
     end.
Proof.
  intros Hd run made. subst run made.
  unfold issued, assignedOrders_queryFn.
  destruct driver as [|c driver]; [done|]. unfold bind.
  set (q := supabase.order "created_at" false _).
  destruct (fault_at 0 w) as [e|] eqn:F.
  { rewrite (await_failure schema q w e F). simpl.
    by rewrite drop_app_length. }
  rewrite (await_success schema q w F).
  change (snd (execute schema (request q) (db w))) with (db w).
  set (data := fst (execute schema (request q) (db w))).
  simpl. rewrite drop_app_length. split; [done|]. split; [done|].
  exists data. split; [reflexivity|]. split.
  { by eapply (execute_newest_first schema (request q) (db w)). }
  apply Forall_forall. intros o Ho.
  apply (execute_select_rows schema (request q) (db w) _ _ o eq_refl)
    in Ho as [Rows Matches].
  split; [exact Rows|].
  assert (keeps schema (db w)
            (F_in "status" ["confirmed"; "preparing"; "ready"]) o = true)
    as A.
  { apply (matches_filter schema (db w) _ _ _ o Matches).
    subst q. simpl. apply elem_of_cons. right. apply elem_of_cons. by left. }
  simpl in A. unfold member in A. apply bool_decide_eq_true in A.
  unfold in_progress.
  repeat (apply elem_of_cons in A as [A|A]; [by eauto|]).
  by apply elem_of_nil in A.
Qed.
End Driver_orders_run.

(** ** The delivery request card and the assignment of orders *)

Lemma fault_after_settled (w : World) (d : DB) (n : nat) :
  fault_at n (settled w d) = fault_at (S n) w.
Proof. unfold fault_at. simpl. by destruct (faults w). Qed.

Section Card_run.
Context (schema : Schema).

(** Accepting an order, call by call. *)
Lemma acceptOrder_run (request : Order) (driver : string) (r : Rest)
    (w : World) :
  let run := acceptOrder_mutationFn schema request driver tt (r, w) in
  let row := new_assignment (generated r) (o_id request) driver (now w) in
  match fault_at 0 w with
  | Some e =>
      fst run = Throw e /\ db (snd (snd run)) = db w
      /\ driver_notifications (fst (snd run)) = driver_notifications r
  | None =>
      order_assignments (db (snd (snd run)))
      = order_assignments (db w) ++ [row]
      /\ match fault_at 1 w with
         | Some e =>
             fst run = Throw e
             /\ orders (db (snd (snd run))) = orders (db w)
             /\ driver_notifications (fst (snd run))
                = driver_notifications r
         | None =>
             orders (db (snd (snd run)))
             = map (confirmed_at (o_id request) (now w)) (orders (db w))
             /\ match fault_at 2 w with
                | Some e =>
                    fst run = Throw e
                    /\ driver_notifications (fst (snd run))
                       = driver_notifications r
                | None =>
                    fst run = Return tt
                    /\ exists n,
                         driver_notifications (fst (snd run))
                         = driver_notifications r ++ [n]
                         /\ n_driver_id n = driver
                         /\ n_order_id n = o_id request
                         /\ n_notification_type n = "order_accepted"
                         /\ n_is_read n = false
                         /\ n_response n = None
                end
         end
  end.
Proof.
  assert (forall (d : DB) (l : list Order) (t : string),
            map (fun o => if matches schema d [] [F_eq "id" (o_id request)] o
                          then patch [("status", "confirmed");
                                      ("updated_at", t)] o
                          else o) l
            = map (confirmed_at (o_id request) t) l) as Upd.
  { intros d l t. apply map_ext. intros o. unfold matches, confirmed_at. simpl.
    by destruct (bool_decide (o_id o = o_id request)). }
  destruct w as [d t fs cs inv ts].
  destruct fs as [|[e0|] fs]; [| |destruct fs as [|[e1|] fs];
    [| |destruct fs as [|[e2|] fs]]];
    cbn -[matches patch confirmed_at pretty]; rewrite ?Upd;
    repeat split; eauto 10.
Qed.
(** Rejecting an order, call by call. *)
Lemma rejectOrder_run (request : Order) (driver : string) (r : Rest)
    (w : World) :
  let run := rejectOrder_mutationFn request driver tt (r, w) in
  db (snd (snd run)) = db w
  /\ match fault_at 0 w with
     | Some e =>
         fst run = Throw e
         /\ driver_notifications (fst (snd run)) = driver_notifications r
     | None =>
         fst run = Return tt
         /\ exists n,
              driver_notifications (fst (snd run))
              = driver_notifications r ++ [n]
              /\ n_driver_id n = driver
              /\ n_order_id n = o_id request
              /\ n_notification_type n = "order_declined"
              /\ n_response n = Some "rejected"
              /\ n_is_read n = true
              /\ n_responded_at n = Some (now w)
     end.
Proof.
  destruct w as [d t fs cs inv ts].
  destruct fs as [|[e0|] fs]; cbn -[pretty]; repeat split; eauto 10.
Qed.

Lemma assignments_lookup (order : string) (d : DB) :
  fst (execute schema (Row := OrderAssignment)
         (request (supabase.from OrderAssignment
                   |> supabase.select ["id"] []
                   |> supabase.eq "order_id" order)) d)
  = assignments_of order d.
Proof.
  unfold execute, assignments_of. simpl.
  induction (order_assignments d) as [|a l IH]; [done|].
  simpl. unfold matches at 1. simpl. rewrite andb_true_r.
  by destruct (bool_decide (a_order_id a = order)); rewrite IH.
Qed.

(** Assigning an order to a driver, call by call. *)
Lemma assignOrderToDriver_run (order driver : string) (r : Rest)
    (w : World) :
  let run := assignOrderToDriver_mutationFn schema (order, driver) (r, w) in
  let found :=
    match fault_at 0 w with
    | Some _ => false
    | None => bool_decide (length (assignments_of order (db w)) = 1)
    end in
  orders (db (snd (snd run))) = orders (db w)
  /\ match fault_at 1 w with
     | Some e => fst run = Throw e /\ db (snd (snd run)) = db w
     | None =>
         fst run = Return tt
         /\ order_assignments (db (snd (snd run)))
            = if found
              then map (reassigned order driver (now w))
                     (order_assignments (db w))
              else order_assignments (db w)
                   ++ [new_assignment (generated r) order driver (now w)]
     end.
Proof.
  assert (forall (d : DB) (l : list OrderAssignment) (t : string),
            map (fun a =>
                   if matches schema d [] [F_eq "order_id" order] a
                   then foldl (fun x '(c, v) => put c v x) a
                          [("driver_id", J_text driver);
                           ("assigned_at", J_text t)]
                   else a) l
            = map (reassigned order driver t) l) as Upd.
  { intros d l t. apply map_ext. intros a. unfold matches, reassigned. simpl.
    by destruct (bool_decide (a_order_id a = order)). }
  unfold assignOrderToDriver_mutationFn, bind2, await_single.
  rewrite assignments_lookup.
  destruct w as [d t fs cs inv ts]. unfold next_fault.
  destruct fs as [|[e0|] fs].
  2: { destruct fs as [|[e1|] fs]; cbn -[pretty]; repeat split; eauto. }
  all: cbn [fault_at faults lookup list_lookup db].
  all: destruct (assignments_of order d) as [|x [|y l]] eqn:E.
  all: try (destruct fs as [|[e1|] fs]).
  all: cbn -[matches pretty reassigned]; repeat split; eauto.
  all: rewrite bool_decide_eq_true_2 by done.
  all: by rewrite <- (Upd d).
Qed.
End Card_run.

(** ** What a returned list can hold *)

Section Returned_lists.
Context (schema : Schema).

(** The loop of [useAvailableOrders]: the lookups it makes with what came
    back, and why an order is kept. *)
Lemma filterOrders_trace (data acc : list Order) (w : World) :
  exists l w',
    filterOrders schema data acc w = (Return (acc ++ l), w')
    /\ calls w'
       = calls w
         ++ imap (fun i o => (lookup_request (o_id o), fault_at i w)) data
    /\ l `sublist_of` data
    /\ (forall i o, data !! i = Some o ->
          is_Some (fault_at i w) \/ unassigned (db w) o -> o ∈ l)
    /\ forall o, o ∈ l ->
         unassigned (db w) o
         \/ exists i, data !! i = Some o /\ is_Some (fault_at i w).
Proof.
  revert acc w. induction data as [|o data IH]; intros acc w.
  { exists [], w. rewrite !app_nil_r. split; [done|]. split; [done|].
    split; [done|]. split; [done|]. by intros o ?%elem_of_nil. }
  set (q := supabase.from OrderAssignment
            |> supabase.select ["id"] []
            |> supabase.eq "order_id" (o_id o)).
  pose proof (lookup_empty schema (db w) o) as L. fold q in L.
  assert (exists push : bool,
            await schema q w
            = (Return (if push
                       then match fault_at 0 w with
                            | Some e => Failure e
                            | None => Success []
                            end
                       else Success (fst (execute schema (request q) (db w)))),
               answered w (db w) (request q) (fault_at 0 w))
            /\ (push = true <-> is_Some (fault_at 0 w) \/ unassigned (db w) o)
            /\ (push = false ->
                length (fst (execute schema (request q) (db w))) <> 0))
    as (push & Await & Push & Rows).
  { destruct (fault_at 0 w) as [e|] eqn:F.
    - exists true. rewrite (await_failure schema q w e F).
      split; [done|]. split; [|done].
      split; [intros _; left; by eexists|done].
    - rewrite (await_success schema q w F).
      destruct (fst (execute schema (Row := OrderAssignment)
                       (request q) (db w))) as [|a rows] eqn:E.
      + exists true. split; [done|]. split; [|done].
        split; [|done]. intros _. right. by apply L.
      + exists false. split; [done|]. split; [|done].
        split; [done|]. intros [[? ?]|U]; [done|]. by apply L in U. }
  set (w1 := answered w (db w) (request q) (fault_at 0 w)) in Await.
  destruct (IH (if push then acc ++ [o] else acc) w1)
    as (l & w' & Run & C & Sub & K1 & K).
  assert (filterOrders schema (o :: data) acc w
          = (Return ((if push then acc ++ [o] else acc) ++ l), w')) as Run'.
  { simpl. unfold bind. fold q. rewrite Await, <- Run. f_equal.
    destruct push; [by destruct (fault_at 0 w)|].
    specialize (Rows eq_refl).
    by destruct (fst (execute schema (request q) (db w))). }
  exists (if push then o :: l else l), w'.
  split. { rewrite Run'. by destruct push; rewrite <- ?app_assoc. }
  split.
  { rewrite C. subst w1. simpl. rewrite <- app_assoc. simpl.
    do 2 f_equal. apply imap_ext. intros i o' _. simpl.
    by rewrite fault_after_call. }
  split. { destruct push; by constructor. }
  split.
  { intros [|i] o' Lk Keep; simpl in Lk.
    - injection Lk as <-. apply Push in Keep. rewrite Keep. by left.
    - assert (o' ∈ l) as In_l.
      { apply (K1 i o' Lk). subst w1. rewrite fault_after_call. exact Keep. }
      destruct push; [by right|done]. }
  assert (forall o', o' ∈ l ->
            unassigned (db w) o'
            \/ exists i, (o :: data) !! i = Some o' /\ is_Some (fault_at i w))
    as K'.
  { intros o' [U|(i & Lk & F)]%K; [by left|]. right. exists (S i).
    split; [exact Lk|]. subst w1. by rewrite fault_after_call in F. }
  intros o' In_l. destruct push; [|by apply K'].
  apply elem_of_cons in In_l as [->|In_l]; [|by apply K'].
  destruct (proj1 Push eq_refl) as [F|U]; [|by left].
  right. by exists 0.
Qed.

(** A list returned by [useAvailableOrders], whatever the calls came back
    with: its orders are pending orders of the store, each of them without
    assignment or with a lookup that came back with an error. *)
Lemma useAvailableOrders_trace (driver : string) (w : World) :
  driver <> "" -> fault_at 0 w = None ->
  let data :=
    fst (execute schema (Row := Order) pending_orders_select (db w)) in
  exists l,
    fst (useAvailableOrders_queryFn schema (Some driver) w) = Return l
    /\ issued (useAvailableOrders_queryFn schema (Some driver)) w
       = (pending_orders_select, None)
         :: imap (fun i o => (lookup_request (o_id o), fault_at (S i) w)) data
    /\ l `sublist_of` data
    /\ (forall i o, data !! i = Some o ->
          is_Some (fault_at (S i) w) \/ unassigned (db w) o -> o ∈ l)
    /\ forall o, o ∈ l ->
         unassigned (db w) o
         \/ exists i, data !! i = Some o /\ is_Some (fault_at (S i) w).
Proof.
  intros Hd F data.
  unfold issued, useAvailableOrders_queryFn.
  rewrite (truthy_nonempty driver Hd). cbn [negb]. unfold bind.
  set (q := supabase.order "created_at" true _).
  rewrite (await_success schema q w F).
  change (snd (execute schema (request q) (db w))) with (db w).
  change (fst (execute schema (request q) (db w))) with data.
  set (w1 := answered w (db w) (request q) None).
  destruct (filterOrders_trace data [] w1) as (l & w' & Run & C & Sub & K1 & K).
  rewrite Run. simpl. exists l. split; [done|]. split.
  { rewrite C. subst w1. simpl. rewrite <- app_assoc, drop_app_length. simpl.
    f_equal. apply imap_ext. intros i o _. simpl.
    by rewrite fault_after_call. }
  split; [exact Sub|]. split.
  { intros i o Lk Keep. apply (K1 i o Lk). subst w1.
    by rewrite fault_after_call. }
  intros o [U|(i & Lk & Fi)]%K; [by left|]. right. exists i.
  split; [exact Lk|]. subst w1. by rewrite fault_after_call in Fi.
Qed.

(** What the select of [useAvailableOrders] answers with. *)
Lemma pending_orders_select_rows (d : DB) :
  let data := fst (execute schema (Row := Order) pending_orders_select d) in
  StronglySorted oldest_first data
  /\ Forall (fun o => o ∈ orders d /\ o_status o = "pending"
                      /\ o_delivery_address_id o = None) data.
Proof.
  intros data. split.
  { by eapply (execute_oldest_first schema pending_orders_select d). }
  apply Forall_forall. intros o Ho.
  apply (execute_select_rows schema pending_orders_select d _ _ o eq_refl)
    in Ho as [Rows Matches].
  split; [exact Rows|].
  pose proof (matches_filter schema d _ _
                (F_eq "status" "pending") o Matches) as St.
  pose proof (matches_filter schema d _ _
                (F_is_null "delivery_address_id") o Matches) as Ad.
  split.
  - assert (keeps schema d (F_eq "status" "pending") o = true) as A.
    { apply St. simpl. apply elem_of_cons. by left. }
    simpl in A. by apply bool_decide_eq_true in A.
  - assert (keeps schema d (F_is_null "delivery_address_id") o = true) as A.
    { apply Ad. simpl. apply elem_of_cons. right.
      apply elem_of_cons. by left. }
    simpl in A. by destruct (o_delivery_address_id o).
Qed.

Lemma useAvailableOrders_sound (driverId : option string) (w : World)
    (l : list Order) (o : Order) :
  fst (useAvailableOrders_queryFn schema driverId w) = Return l ->
  o ∈ l ->
  o ∈ orders (db w) /\ o_status o = "pending"
  /\ (unassigned (db w) o
      \/ exists e, (lookup_request (o_id o), Some e)
                   ∈ issued (useAvailableOrders_queryFn schema driverId) w).
Proof.
  destruct driverId as [driver|].
  2: { intros [= <-] ?%elem_of_nil. done. }
  destruct (decide (driver = "")) as [->|Hd].
  { intros [= <-] ?%elem_of_nil. done. }
  destruct (useAvailableOrders_run schema driver w Hd) as [_ R].
  destruct (fault_at 0 w) as [e|] eqn:F.
  { destruct R as [-> _]. discriminate. }
  destruct R as (data & l' & R & S & _ & P & _).
  destruct (useAvailableOrders_trace driver w Hd F)
    as (l'' & R' & C & _ & _ & K).
  cbv zeta in C, K.
  rewrite R in R'. injection R' as <-. rewrite R. intros [= <-] In_l.
  assert (o ∈ data) as In_d by (eapply elem_of_sublist; eassumption).
  apply (proj1 (Forall_forall _ _) P) in In_d as (In_s & St & _).
  split; [exact In_s|]. split; [exact St|].
  destruct (K o In_l) as [U|(i & Lk & [e Fi])]; [by left|]. right.
  exists e. rewrite C. apply elem_of_cons. right.
  apply elem_of_lookup_imap. exists i, o. by rewrite Fi.
Qed.

Lemma availableOrders_sound (w : World) (l : list Order) (o : Order) :
  fst (availableOrders_queryFn schema w) = Return l -> o ∈ l ->
  o ∈ orders (db w) /\ o_status o = "ready" /\ unassigned (db w) o.
Proof.
  destruct (availableOrders_run schema w) as [_ R].
  destruct (fault_at 0 w) as [e|].
  { destruct R as [-> _]. discriminate. }
  destruct R as [_ R]. destruct (fault_at 1 w) as [e|].
  { rewrite R. discriminate. }
  destruct R as (l' & -> & _ & P). intros [= <-]. apply P.
Qed.

Lemma assignedOrders_sound (driverId : option string) (w : World)
    (l : list Order) (o : Order) :
  fst (assignedOrders_queryFn schema driverId w) = Return l -> o ∈ l ->
  o ∈ orders (db w) /\ in_progress o.
Proof.
  destruct driverId as [driver|].
  2: { intros [= <-] ?%elem_of_nil. done. }
  destruct (decide (driver = "")) as [->|Hd].
  { intros [= <-] ?%elem_of_nil. done. }
  destruct (assignedOrders_run schema driver w Hd) as (_ & _ & R).
  destruct (fault_at 0 w) as [e|].
  { rewrite R. discriminate. }
  destruct R as (l' & -> & _ & P). intros [= <-] In_l.
  by apply (proj1 (Forall_forall _ _) P).
Qed.
End Returned_lists.




(** ** Arithmetic of the distance estimate *)









(** ** Further properties of the queries *)

Lemma StronglySorted_sublist {A} (R : relation A) (l k : list A) :
  l `sublist_of` k -> StronglySorted R k -> StronglySorted R l.
Proof.
  induction 1 as [|x l k S IH|x l k S IH]; intros H; [done| |].
  - apply StronglySorted_inv in H as [H F]. constructor; [by apply IH|].
    apply Forall_forall. intros y Hy.
    apply (proj1 (Forall_forall _ _) F), (elem_of_sublist l k y Hy S).
  - apply StronglySorted_inv in H as [H _]. by apply IH.
Qed.

(** X1. With a driver id, [useAvailableOrders] throws exactly when its
    first select comes back with an error: it throws that error and has
    made that one call only; when the select is answered it returns a
    list, whatever the lookups come back with.  The store is never
    changed. *)
Theorem available_orders_first_call_decides (schema : Schema)
    (driver : string) (w : World) :
  driver <> "" ->
  let run := useAvailableOrders_queryFn schema (Some driver) w in
  db (snd run) = db w
  /\ match fault_at 0 w with
     | Some e =>
         fst run = Throw e
         /\ length (issued (useAvailableOrders_queryFn schema (Some driver))
                      w) = 1
     | None => exists l, fst run = Return l
     end.
Proof.
  intros Hd run.
  destruct (useAvailableOrders_run schema driver w Hd) as [D R].
  split; [exact D|].
  destruct (fault_at 0 w); [exact R|].
  destruct R as (data & l & R & _). by exists l.
Qed.

Lemma available_orders_first_call_decides_witness :
  fst (useAvailableOrders_queryFn permissive (Some "d1")
         (failing sample_db "2024-05-01T13:00:00.000Z" [Some timeout_error]))
  = Throw timeout_error.
Proof.
  assert ("d1" <> "") as Hd by discriminate.
  exact (proj1 (proj2 (available_orders_first_call_decides permissive "d1"
                         (failing sample_db "2024-05-01T13:00:00.000Z"
                            [Some timeout_error]) Hd))).
Defined.

(** X2. When its select is answered, the calls of [useAvailableOrders]
    are that select and then one lookup in [order_assignments] for each
    order the select answered with, in the same order and by that order's
    id.  The fetched orders are pending orders of the store without a
    delivery address; the returned list is a sublist of them, it holds
    every fetched order that has no assignment or whose lookup came back
    with an error, and no other. *)
Theorem available_orders_one_lookup_each (schema : Schema) (driver : string)
    (w : World) :
  driver <> "" -> fault_at 0 w = None ->
  let data :=
    fst (execute schema (Row := Order) pending_orders_select (db w)) in
  issued (useAvailableOrders_queryFn schema (Some driver)) w
  = (pending_orders_select, None)
    :: imap (fun i o => (lookup_request (o_id o), fault_at (S i) w)) data
  /\ Forall (fun o => o ∈ orders (db w) /\ o_status o = "pending"
                      /\ o_delivery_address_id o = None) data
  /\ exists l,
       fst (useAvailableOrders_queryFn schema (Some driver) w) = Return l
       /\ l `sublist_of` data
       /\ (forall i o, data !! i = Some o ->
             is_Some (fault_at (S i) w) \/ unassigned (db w) o -> o ∈ l)
       /\ forall o, o ∈ l ->
            unassigned (db w) o
            \/ exists i, data !! i = Some o /\ is_Some (fault_at (S i) w).
Proof.
  intros Hd F data.
  destruct (useAvailableOrders_trace schema driver w Hd F)
    as (l & R & C & Sub & K1 & K2).
  split; [exact C|].
  split; [exact (proj2 (pending_orders_select_rows schema (db w)))|].
  by exists l.
Qed.

Lemma available_orders_one_lookup_each_witness :
  let w := faithful queue_db "2024-05-01T13:00:00.000Z" in
  map fst (issued (useAvailableOrders_queryFn permissive (Some "d1")) w)
  = [pending_orders_select; lookup_request "o5"; lookup_request "o6";
     lookup_request "o7"]
  /\ exists l,
       fst (useAvailableOrders_queryFn permissive (Some "d1") w) = Return l
       /\ l `sublist_of`
            [sample_order_at "o5" "pending" "2024-05-01T12:10:00.000Z";
             sample_order_at "o6" "pending" "2024-05-01T12:20:00.000Z";
             sample_order_at "o7" "pending" "2024-05-01T12:30:00.000Z"].
Proof.
  intros w.
  assert ("d1" <> "") as Hd by discriminate.
  destruct (available_orders_one_lookup_each permissive "d1" w Hd eq_refl)
    as (C & _ & l & R & Sub & _).
  split.
  - rewrite C. reflexivity.
  - exists l. split; [exact R|exact Sub].
Defined.

(** X3. Whatever the remote calls come back with, a list returned by
    [useAvailableOrders] is in order of creation, oldest first. *)
Theorem available_orders_oldest_first (schema : Schema)
    (driverId : option string) (w : World) (l : list Order) :
  fst (useAvailableOrders_queryFn schema driverId w) = Return l ->
  StronglySorted oldest_first l.
Proof.
  destruct driverId as [driver|].
  2: { intros [= <-]. constructor. }
  destruct (decide (driver = "")) as [->|Hd].
  { intros [= <-]. constructor. }
  destruct (useAvailableOrders_run schema driver w Hd) as [_ R].
  destruct (fault_at 0 w) as [e|].
  { destruct R as [-> _]. discriminate. }
  destruct R as (data & l' & -> & S & Sorted & _). intros [= <-].
  by apply (StronglySorted_sublist _ l' data).
Qed.

Lemma available_orders_oldest_first_witness :
  StronglySorted oldest_first
    [sample_order_at "o5" "pending" "2024-05-01T12:10:00.000Z";
     sample_order_at "o7" "pending" "2024-05-01T12:30:00.000Z"].
Proof.
  apply (available_orders_oldest_first permissive (Some "d1")
           (faithful queue_db "2024-05-01T13:00:00.000Z")).
  reflexivity.
Defined.

(** X4. The loop of [useAvailableOrders] keeps an order whose lookup
    comes back with an error, whether or not the order has assignments;
    the loop itself never throws. *)
Theorem failed_lookup_keeps_order (schema : Schema) (data acc : list Order)
    (w : World) (i : nat) (o : Order) (e : PostgrestError) :
  data !! i = Some o -> fault_at i w = Some e ->
  exists l w', filterOrders schema data acc w = (Return l, w') /\ o ∈ l.
Proof.
  intros Lk F.
  destruct (filterOrders_run schema data acc w)
    as (l & w' & new & Run & _ & _ & _ & _ & _ & K).
  exists (acc ++ l), w'. split; [exact Run|].
  apply elem_of_app. right. apply (K i o Lk). left. by eexists.
Qed.

Lemma failed_lookup_keeps_order_witness :
  ~ unassigned sample_db (sample_order "o3" "ready")
  /\ exists l w',
       filterOrders permissive [sample_order "o3" "ready"] []
         (failing sample_db "2024-05-01T13:00:00.000Z" [Some timeout_error])
       = (Return l, w')
       /\ sample_order "o3" "ready" ∈ l.
Proof.
  split.
  - intros U. apply (U (sample_assignment "a1" "o3" "d1")); [|reflexivity].
    by apply list_elem_of_singleton.
  - apply (failed_lookup_keeps_order permissive _ _ _ 0 _ timeout_error);
      reflexivity.
Defined.

(** X5. When its two calls are answered, the available-orders query of
    [useDriverOrders] returns exactly the orders of the store that have
    status [ready] and no assignment, newest first. *)
Theorem driver_available_orders_exact (schema : Schema) (w : World) :
  fault_at 0 w = None -> fault_at 1 w = None ->
  exists l,
    fst (availableOrders_queryFn schema w) = Return l
    /\ StronglySorted newest_first l
    /\ forall o, o ∈ l <->
         o ∈ orders (db w) /\ o_status o = "ready" /\ unassigned (db w) o.
Proof.
  intros F0 F1.
  destruct (availableOrders_run schema w) as [_ R].
  rewrite F0, F1 in R. by destruct R as [_ R].
Qed.

Lemma driver_available_orders_exact_witness :
  exists l,
    fst (availableOrders_queryFn permissive
           (faithful sample_db "2024-05-01T13:00:00.000Z")) = Return l
    /\ sample_order "o2" "ready" ∈ l.
Proof.
  destruct (driver_available_orders_exact permissive
              (faithful sample_db "2024-05-01T13:00:00.000Z")
              eq_refl eq_refl) as (l & R & _ & In_l).
  exists l. split; [exact R|].
  apply In_l. split; [|split; [reflexivity|]].
  - apply elem_of_cons. right. by left.
  - intros a ->%list_elem_of_singleton. discriminate.
Defined.

(** X6. The available-orders query of [useDriverOrders] throws the error
    of whichever of its two calls fails first: if reading the assigned
    ids fails, [orders] is never queried.  The store is never changed. *)
Theorem driver_available_orders_errors (schema : Schema) (w : World) :
  let run := availableOrders_queryFn schema w in
  let tables :=
    map (fun c => r_table (fst c)) (issued (availableOrders_queryFn schema) w)
  in
  db (snd run) = db w
  /\ match fault_at 0 w, fault_at 1 w with
     | Some e, _ => fst run = Throw e /\ tables = ["order_assignments"]
     | None, Some e =>
         fst run = Throw e /\ tables = ["order_assignments"; "orders"]
     | None, None =>
         (exists l, fst run = Return l)
         /\ tables = ["order_assignments"; "orders"]
     end.
Proof.
  intros run tables. subst run tables.
  destruct (availableOrders_run schema w) as [D R].
  split; [exact D|].
  destruct (fault_at 0 w) as [e0|]; [exact R|].
  destruct R as [Made R].
  assert (map (fun c => r_table (fst c))
            (issued (availableOrders_queryFn schema) w)
          = ["order_assignments"; "orders"]) as Tables.
  { change (fun c : Request * option PostgrestError => r_table (fst c))
      with (fun c : Request * option PostgrestError =>
              fst ((fun c => (r_table (fst c), r_filters (fst c))) c)).
    by rewrite <- (map_map _ fst), Made. }
  destruct (fault_at 1 w) as [e1|]; [done|].
  destruct R as (l & R & _). eauto.
Qed.

(** X7. The exclusion filter of that query is sent only when there are
    assignments: with none, [orders] is filtered by status alone;
    otherwise the id must be outside the list of the [order_id]s of all
    assignment rows. *)
Theorem driver_available_orders_exclusion (schema : Schema) (w : World) :
  fault_at 0 w = None ->
  map (fun c => r_filters (fst c)) (issued (availableOrders_queryFn schema) w)
  = [[];
     match order_assignments (db w) with
     | [] => [F_eq "status" "ready"]
     | rows => [F_eq "status" "ready"; F_not_in "id" (map a_order_id rows)]
     end].
Proof.
  intros F0.
  destruct (availableOrders_run schema w) as [_ R].
  rewrite F0 in R. destruct R as [Made _].
  change (fun c : Request * option PostgrestError => r_filters (fst c))
    with (fun c : Request * option PostgrestError =>
            snd ((fun c => (r_table (fst c), r_filters (fst c))) c)).
  rewrite <- (map_map _ snd), Made. simpl.
  by destruct (order_assignments (db w)).
Qed.

Lemma driver_available_orders_exclusion_witness :
  map (fun c => r_filters (fst c))
    (issued (availableOrders_queryFn permissive)
       (faithful sample_db "2024-05-01T13:00:00.000Z"))
  = [[]; [F_eq "status" "ready"; F_not_in "id" ["o3"]]].
Proof.
  exact (driver_available_orders_exclusion permissive
           (faithful sample_db "2024-05-01T13:00:00.000Z") eq_refl).
Defined.

(** X8. With a driver id, the assigned-orders query of [useDriverOrders]
    makes one call, to [orders]; it throws the error of that call if it
    fails and otherwise returns orders of the store whose status is
    [confirmed], [preparing] or [ready], newest first. *)
Theorem assigned_orders_in_progress (schema : Schema) (driver : string)
    (w : World) :
  driver <> "" ->
  let run := assignedOrders_queryFn schema (Some driver) w in
  map (fun c => r_table (fst c))
    (issued (assignedOrders_queryFn schema (Some driver)) w) = ["orders"]
  /\ match fault_at 0 w with
     | Some e => fst run = Throw e
     | None =>
         exists l,
           fst run = Return l
           /\ StronglySorted newest_first l
           /\ Forall (fun o => o ∈ orders (db w) /\ in_progress o) l
     end.
Proof.
  intros Hd run.
  by destruct (assignedOrders_run schema driver w Hd) as (_ & T & R).
Qed.

Lemma assigned_orders_in_progress_witness :
  exists l,
    fst (assignedOrders_queryFn permissive (Some "d1")
           (faithful sample_db "2024-05-01T13:00:00.000Z")) = Return l
    /\ Forall in_progress l.
Proof.
  assert ("d1" <> "") as Hd by discriminate.
  destruct (assigned_orders_in_progress permissive "d1"
              (faithful sample_db "2024-05-01T13:00:00.000Z") Hd)
    as (_ & l & R & _ & P).
  exists l. split; [exact R|].
  apply Forall_forall. intros o Ho.
  by apply (proj1 (Forall_forall _ _) P o Ho).
Defined.

(** X9. The two driver-bound queries make a remote call, and the
    subscription effect opens a channel, exactly when the driver id is
    neither missing nor the empty string. *)
Theorem driver_id_falsy (schema : Schema) (driverId : option string)
    (w : World) :
  let absent := driverId = None \/ driverId = Some "" in
  (issued (useAvailableOrders_queryFn schema driverId) w = [] <-> absent)
  /\ (issued (assignedOrders_queryFn schema driverId) w = [] <-> absent)
  /\ (useAvailableOrders_subscription driverId = None <-> absent).
Proof.
  intros absent. subst absent.
  destruct driverId as [driver|].
  2: { unfold issued. simpl. rewrite drop_all. by repeat split; eauto. }
  destruct (decide (driver = "")) as [->|Hd].
  { unfold issued. simpl. rewrite drop_all. by repeat split; eauto. }
  assert (~ (Some driver = None \/ Some driver = Some "")) as N.
  { intros [?|[= ?]]; done. }
  split; [|split]; (split; [|by intros ?]); intros E; exfalso.
  - destruct (useAvailableOrders_run schema driver w Hd) as [_ R].
    cbv zeta in R. rewrite E in R.
    destruct (fault_at 0 w); [by destruct R|].
    by destruct R as (? & ? & _ & _ & _ & _ & ? & _).
  - destruct (assignedOrders_run schema driver w Hd) as (_ & T & _).
    cbv zeta in T. by rewrite E in T.
  - unfold useAvailableOrders_subscription in E.
    by rewrite (truthy_nonempty driver Hd) in E.
Qed.

(** ** Further properties of the status update *)

Lemma filter_map_unchanged {A} (p : A -> bool) (f : A -> A) (l : list A) :
  (forall x, p (f x) = p x) -> (forall x, p x = true -> f x = x) ->
  List.filter p (map f l) = List.filter p l.
Proof.
  intros P F. induction l as [|x l IH]; [done|].
  simpl. rewrite P, IH. destruct (p x) eqn:E; [|done].
  by rewrite (F x E).
Qed.

Lemma mutate_status_store (schema : Schema) (v : StatusVariables)
    (w : World) :
  db (snd (mutate (updateOrderStatus schema) v w))
  = db (snd (updateOrderStatus_mutationFn schema v w)).
Proof.
  unfold mutate. simpl.
  by destruct (updateOrderStatus_mutationFn schema v w) as [[[]|e] w'].
Qed.

(** X10. Whatever the remote calls come back with, a status update adds
    and removes no row and changes no id, no assignment's order or
    driver; the orders with another id and the assignments of other
    orders are exactly as they were. *)
Theorem status_update_touches_one_order (schema : Schema)
    (v : StatusVariables) (w : World) :
  let d := db w in
  let d' := db (snd (updateOrderStatus_mutationFn schema v w)) in
  map o_id (orders d') = map o_id (orders d)
  /\ map (fun a => (a_id a, a_order_id a, a_driver_id a))
       (order_assignments d')
     = map (fun a => (a_id a, a_order_id a, a_driver_id a))
         (order_assignments d)
  /\ List.filter (fun o => negb (bool_decide (o_id o = orderId v)))
       (orders d')
     = List.filter (fun o => negb (bool_decide (o_id o = orderId v)))
         (orders d)
  /\ List.filter (fun a => negb (bool_decide (a_order_id a = orderId v)))
       (order_assignments d')
     = List.filter (fun a => negb (bool_decide (a_order_id a = orderId v)))
         (order_assignments d).
Proof.
  intros d d'. subst d d'. rewrite updateOrderStatus_store.
  assert (forall t l, map o_id (map (with_status v t) l) = map o_id l) as I.
  { intros t l. rewrite map_map. apply map_ext. intros o.
    unfold with_status. by destruct (bool_decide _). }
  assert (forall u l,
            map (fun a => (a_id a, a_order_id a, a_driver_id a))
              (map (with_times v u) l)
            = map (fun a => (a_id a, a_order_id a, a_driver_id a)) l) as J.
  { intros u l. rewrite map_map. apply map_ext. intros a.
    unfold with_times. by destruct (bool_decide _). }
  assert (forall t l,
            List.filter (fun o => negb (bool_decide (o_id o = orderId v)))
              (map (with_status v t) l)
            = List.filter (fun o => negb (bool_decide (o_id o = orderId v)))
                l) as F.
  { intros t l. apply filter_map_unchanged; intros o; unfold with_status;
      destruct (bool_decide (o_id o = orderId v)) eqn:E; simpl;
      by rewrite ?E. }
  assert (forall u l,
            List.filter
              (fun a => negb (bool_decide (a_order_id a = orderId v)))
              (map (with_times v u) l)
            = List.filter
                (fun a => negb (bool_decide (a_order_id a = orderId v))) l)
    as G.
  { intros u l. apply filter_map_unchanged; intros a; unfold with_times;
      destruct (bool_decide (a_order_id a = orderId v)) eqn:E; simpl;
      by rewrite ?E. }
  destruct (fault_at 0 w); [done|]. simpl. rewrite I, F.
  destruct (assignmentUpdate v) as [u|]; [|done].
  destruct (fault_at 1 w); [done|]. by rewrite J, G.
Qed.

(** X11. A status update for an id that no order and no assignment has
    leaves the store as it was, and when both writes are answered the
    success toast is shown all the same. *)
Theorem status_update_unknown_order (schema : Schema) (v : StatusVariables)
    (w : World) :
  (forall o, o ∈ orders (db w) -> o_id o <> orderId v) ->
  (forall a, a ∈ order_assignments (db w) -> a_order_id a <> orderId v) ->
  db (snd (mutate (updateOrderStatus schema) v w)) = db w
  /\ (fault_at 0 w = None -> fault_at 1 w = None ->
      notices (mutate (updateOrderStatus schema) v) w
      = [toast_success "Estado del pedido actualizado"]).
Proof.
  intros No Na. split.
  - rewrite mutate_status_store, updateOrderStatus_store.
    assert (forall t, map (with_status v t) (orders (db w)) = orders (db w))
      as I.
    { intros t. rewrite <- (map_id (orders (db w))) at 2.
      apply map_ext_in. intros o Ho%list_elem_of_In.
      unfold with_status. by rewrite bool_decide_eq_false_2 by by apply No. }
    assert (forall u, map (with_times v u) (order_assignments (db w))
                      = order_assignments (db w)) as J.
    { intros u. rewrite <- (map_id (order_assignments (db w))) at 2.
      apply map_ext_in. intros a Ha%list_elem_of_In.
      unfold with_times. by rewrite bool_decide_eq_false_2 by by apply Na. }
    destruct (fault_at 0 w); [done|]. rewrite I.
    destruct (assignmentUpdate v) as [u|], (fault_at 1 w);
      rewrite ?J; by destruct (db w).
  - intros F0 F1.
    pose proof (updateOrderStatus_mutate_told schema v w) as T.
    cbv zeta in T. rewrite updateOrderStatus_completion, F0, F1 in T.
    by destruct (assignmentUpdate v); destruct T.
Qed.

Lemma status_update_unknown_order_witness :
  let v := {| orderId := "o9"; status := delivered;
              assignmentUpdate := None |} in
  let w := faithful sample_db "2024-05-01T13:00:00.000Z" in
  db (snd (mutate (updateOrderStatus permissive) v w)) = sample_db
  /\ notices (mutate (updateOrderStatus permissive) v) w
     = [toast_success "Estado del pedido actualizado"].
Proof.
  intros v w.
  destruct (status_update_unknown_order permissive v w) as [D T].
  - intros o Ho.
    repeat (apply elem_of_cons in Ho as [->|Ho]; [discriminate|]).
    by apply elem_of_nil in Ho.
  - intros a ->%list_elem_of_singleton. discriminate.
  - split; [exact D|]. by apply T.
Defined.

(** X12. Repeating a status update is harmless and the last write wins:
    with all writes answered, running it at one time and again at a later
    time leaves the store as running it once at the later time. *)
Theorem status_update_last_write_wins (schema : Schema)
    (v : StatusVariables) (d : DB) (t1 t2 : string) :
  let once t d := db (snd (updateOrderStatus_mutationFn schema v
                             (faithful d t))) in
  once t2 (once t1 d) = once t2 d.
Proof.
  intros once. subst once. cbv beta.
  rewrite !updateOrderStatus_store. simpl.
  assert (forall l, map (with_status v t2) (map (with_status v t1) l)
                    = map (with_status v t2) l) as I.
  { intros l. rewrite map_map. apply map_ext. intros o.
    unfold with_status.
    destruct (bool_decide (o_id o = orderId v)) eqn:E; simpl; by rewrite E. }
  rewrite I. f_equal.
  destruct (assignmentUpdate v) as [u|]; [|done].
  rewrite map_map. apply map_ext. intros a. unfold with_times.
  destruct (bool_decide (a_order_id a = orderId v)) eqn:E; simpl;
    rewrite E; [|done].
  by destruct (picked_up_at u), (delivered_at u).
Qed.

(** ** Picking up and delivering *)

Lemma pickupOrder_mutate (schema : Schema) (order : string) (w : World) :
  pickupOrder schema order w
  = mutate (updateOrderStatus schema)
      {| orderId := order; status := ready;
         assignmentUpdate :=
           Some {| picked_up_at := Some (now w); delivered_at := None |} |} w.
Proof. reflexivity. Qed.

Lemma deliverOrder_mutate (schema : Schema) (order : string) (w : World) :
  deliverOrder schema order w
  = mutate (updateOrderStatus schema)
      {| orderId := order; status := delivered;
         assignmentUpdate :=
           Some {| picked_up_at := None; delivered_at := Some (now w) |} |} w.
Proof. reflexivity. Qed.

(** X13. Picking up and delivering never throw to their caller and show
    exactly one toast each, whatever the remote calls come back with. *)
Theorem pickup_deliver_one_toast (schema : Schema) (order : string)
    (w : World) :
  fst (pickupOrder schema order w) = Return tt
  /\ length (notices (pickupOrder schema order) w) = 1
  /\ fst (deliverOrder schema order w) = Return tt
  /\ length (notices (deliverOrder schema order) w) = 1.
Proof.
  assert (forall v,
            fst (mutate (updateOrderStatus schema) v w) = Return tt
            /\ length (notices (mutate (updateOrderStatus schema) v) w) = 1)
    as H.
  { intros v. split.
    - unfold mutate. simpl.
      by destruct (updateOrderStatus_mutationFn schema v w) as [[[]|e] w'].
    - pose proof (updateOrderStatus_mutate_told schema v w) as T.
      cbv zeta in T.
      destruct (fst (updateOrderStatus_mutationFn schema v w));
        destruct T as [-> _]; reflexivity. }
  unfold notices. rewrite pickupOrder_mutate, deliverOrder_mutate.
  destruct (H {| orderId := order; status := ready;
                 assignmentUpdate :=
                   Some {| picked_up_at := Some (now w);
                           delivered_at := None |} |}) as [R1 N1].
  destruct (H {| orderId := order; status := delivered;
                 assignmentUpdate :=
                   Some {| picked_up_at := None;
                           delivered_at := Some (now w) |} |}) as [R2 N2].
  done.
Qed.

(** X14. With both writes answered, picking up an order leaves every
    order with that id in status [ready], stamped with the clock, and
    stamps [picked_up_at] on every assignment of it, leaving
    [delivered_at] of every assignment as it was. *)
Theorem pickup_stamps (schema : Schema) (order : string) (w : World) :
  fault_at 0 w = None -> fault_at 1 w = None ->
  let d' := db (snd (pickupOrder schema order w)) in
  Forall (fun o => o_id o = order ->
                   o_status o = "ready" /\ o_updated_at o = now w) (orders d')
  /\ Forall (fun a => a_order_id a = order ->
                      a_picked_up_at a = Some (now w)) (order_assignments d')
  /\ map a_delivered_at (order_assignments d')
     = map a_delivered_at (order_assignments (db w)).
Proof.
  intros F0 F1 d'. subst d'.
  rewrite pickupOrder_mutate, mutate_status_store, updateOrderStatus_store,
    F0, F1. simpl.
  split; [|split].
  - apply Forall_forall. intros o (o0 & -> & _)%list_elem_of_fmap.
    unfold with_status. simpl. case_bool_decide; [done|]. by intros ?.
  - apply Forall_forall. intros a (a0 & -> & _)%list_elem_of_fmap.
    unfold with_times. simpl. case_bool_decide; [done|]. by intros ?.
  - rewrite map_map. apply map_ext. intros a.
    unfold with_times. simpl. by case_bool_decide.
Qed.

Lemma pickup_stamps_witness :
  let w := faithful sample_db "2024-05-01T13:00:00.000Z" in
  Forall (fun a => a_order_id a = "o3" ->
                   a_picked_up_at a = Some "2024-05-01T13:00:00.000Z")
    (order_assignments (db (snd (pickupOrder permissive "o3" w)))).
Proof.
  intros w.
  exact (proj1 (proj2 (pickup_stamps permissive "o3" w eq_refl eq_refl))).
Defined.

(** X15. With all writes answered, an order picked up at one time and
    delivered at a later one ends in status [delivered], and every
    assignment of it carries both times: delivering keeps the pick-up
    time. *)
Theorem pickup_then_deliver (schema : Schema) (order : string) (d : DB)
    (t1 t2 : string) :
  let d1 := db (snd (pickupOrder schema order (faithful d t1))) in
  let d2 := db (snd (deliverOrder schema order (faithful d1 t2))) in
  Forall (fun o => o_id o = order ->
                   o_status o = "delivered" /\ o_updated_at o = t2)
    (orders d2)
  /\ Forall (fun a => a_order_id a = order ->
                      a_picked_up_at a = Some t1
                      /\ a_delivered_at a = Some t2)
       (order_assignments d2)
  /\ length (order_assignments d2) = length (order_assignments d).
Proof.
  intros d1 d2. subst d2.
  assert (exists v u,
            d1 = {| orders := map (with_status v t1) (orders d);
                    order_assignments :=
                      map (with_times v u) (order_assignments d) |}
            /\ orderId v = order
            /\ picked_up_at u = Some t1 /\ delivered_at u = None)
    as (v & u & -> & Hv & Hp & Hd).
  { subst d1.
    rewrite pickupOrder_mutate, mutate_status_store, updateOrderStatus_store.
    simpl. by do 2 eexists. }
  rewrite deliverOrder_mutate, mutate_status_store, updateOrderStatus_store.
  simpl. split; [|split].
  - apply Forall_forall. intros o (o0 & -> & _)%list_elem_of_fmap.
    unfold with_status. simpl.
    destruct (bool_decide (o_id o0 = order)) eqn:E; simpl; [done|].
    apply bool_decide_eq_false in E. by intros ?.
  - apply Forall_forall.
    intros a (a1 & -> & (a0 & -> & _)%list_elem_of_fmap)%list_elem_of_fmap.
    unfold with_times. simpl. rewrite Hv, Hp, Hd.
    destruct (bool_decide (a_order_id a0 = order)) eqn:E; simpl;
      rewrite E; [done|].
    apply bool_decide_eq_false in E. by intros ?.
  - by rewrite !length_map.
Qed.

(** X16. Once the [orders] write of delivering has been carried out,
    every row of the delivered order reads [delivered], and whatever the
    remote calls of a later fetch come back with, the order is in no list
    that fetch returns: not among the assigned orders of any driver, and
    not among the available orders of either hook. *)
Theorem delivered_order_leaves_lists (schema : Schema) (order : string)
    (w w' : World) (driverId driverId' : option string) (o : Order) :
  fault_at 0 w = None ->
  db w' = db (snd (deliverOrder schema order w)) ->
  o_id o = order ->
  (o ∈ orders (db w') -> o_status o = "delivered")
  /\ (forall l, fst (assignedOrders_queryFn schema driverId w') = Return l ->
        o ∉ l)
  /\ (forall l,
        fst (useAvailableOrders_queryFn schema driverId' w') = Return l ->
        o ∉ l)
  /\ (forall l, fst (availableOrders_queryFn schema w') = Return l -> o ∉ l).
Proof.
  intros F D Ho.
  assert (o ∈ orders (db w') -> o_status o = "delivered") as Delivered.
  { rewrite D, deliverOrder_mutate, mutate_status_store,
      updateOrderStatus_store, F. simpl.
    intros (o0 & -> & _)%list_elem_of_fmap. revert Ho.
    unfold with_status. simpl. case_bool_decide; [done|]. by intros ?. }
  split; [exact Delivered|].
  split; [|split]; intros l R In_l.
  - destruct (assignedOrders_sound schema driverId w' l o R In_l)
      as [In_d Prog].
    unfold in_progress in Prog. rewrite (Delivered In_d) in Prog.
    by destruct Prog as [|[|]].
  - destruct (useAvailableOrders_sound schema driverId' w' l o R In_l)
      as (In_d & St & _).
    by rewrite (Delivered In_d) in St.
  - destruct (availableOrders_sound schema w' l o R In_l) as (In_d & St & _).
    by rewrite (Delivered In_d) in St.
Qed.

Lemma delivered_order_leaves_lists_witness :
  let d' := db (snd (deliverOrder permissive "o3"
                       (faithful sample_db "2024-05-01T13:00:00.000Z"))) in
  let delivered :=
    {| o_id := "o3"; o_status := "delivered"; o_notes := None;
       o_delivery_address_id := None;
       o_created_at := "2024-05-01T12:00:00.000Z";
       o_updated_at := "2024-05-01T13:00:00.000Z" |} in
  delivered ∈ orders d'
  /\ exists l,
       fst (assignedOrders_queryFn permissive (Some "d1")
              (failing d' "2024-05-01T13:05:00.000Z" [])) = Return l
       /\ delivered ∉ l.
Proof.
  intros d' delivered. split.
  - do 2 apply list_elem_of_further. apply list_elem_of_here.
  - eexists. split; [reflexivity|].
    apply (proj1 (proj2 (delivered_order_leaves_lists permissive "o3"
                           (faithful sample_db "2024-05-01T13:00:00.000Z")
                           (failing d' "2024-05-01T13:05:00.000Z" [])
                           (Some "d1") None delivered
                           eq_refl eq_refl eq_refl))).
    reflexivity.
Defined.

(** ** Further properties of the change feed *)

(** X17. Handling a change never throws, makes no remote call, shows no
    toast and leaves the store alone; it invalidates at most once, and
    not at all for a delete, for another schema or for another table. *)
Theorem change_feed_is_quiet (driverId : option string) (ch : Channel)
    (p : Payload) (w : World) :
  useAvailableOrders_subscription driverId = Some ch ->
  let w' := snd (receive ch p w) in
  fst (receive ch p w) = Return tt
  /\ db w' = db w /\ calls w' = calls w /\ toasts w' = toasts w
  /\ length (invalidations (receive ch p) w) <= 1
  /\ (eventType p = DELETE \/ p_schema p <> "public"
      \/ p_table p <> "orders" ->
      invalidations (receive ch p) w = []).
Proof.
  unfold useAvailableOrders_subscription.
  destruct (truthy driverId); [|discriminate]. intros [= <-].
  destruct p as [ev sc tb row].
  unfold invalidations, receive. cbn [listeners dispatch].
  unfold bind, listens, on_insert, on_update.
  cbn [event schema_name table eventType p_schema p_table new].
  destruct (bool_decide ("public" = sc)) eqn:S;
    destruct (bool_decide ("orders" = tb)) eqn:T;
    destruct ev; cbn [EventType_eqb andb];
    try destruct (bool_decide (o_status row = "pending")
                  && negb match o_notes row with
                          | Some notes => includes notes "Mesa:"
                          | None => false
                          end);
    cbn [invalidateQueries ret fst snd db calls toasts invalidated];
    rewrite ?drop_app_length, ?drop_all; simpl;
    repeat split; try lia; try done.
  all: apply bool_decide_eq_true in S as <-.
  all: apply bool_decide_eq_true in T as <-.
  all: intros [?|[?|?]]; done.
Qed.

Lemma change_feed_is_quiet_witness :
  exists ch,
    useAvailableOrders_subscription (Some "d1") = Some ch
    /\ invalidations
         (receive ch {| eventType := DELETE; p_schema := "public";
                        p_table := "orders";
                        new := sample_order "o1" "pending" |})
         (faithful sample_db "2024-05-01T13:00:00.000Z") = [].
Proof.
  eexists. split; [reflexivity|].
  apply (change_feed_is_quiet (Some "d1") _ _ _ eq_refl).
  by left.
Defined.

(** ** Properties of the delivery request card *)

(** X18. Accepting an order makes its three writes in turn with nothing
    undone: if the insert of the assignment fails, nothing has changed;
    once it is carried out the new assignment row stays, whatever the
    later calls come back with, and no check is made for an assignment
    the order already has; the order becomes [confirmed] exactly if the
    second call is carried out, and the notification, unread, is added
    exactly if all three are.  The error thrown is that of the first
    failing call. *)
Theorem accept_writes_without_rollback (schema : Schema) (request : Order)
    (driver : string) (r : Rest) (w : World) :
  let run := acceptOrder_mutationFn schema request driver tt (r, w) in
  let row := new_assignment (generated r) (o_id request) driver (now w) in
  match fault_at 0 w with
  | Some e =>
      fst run = Throw e /\ db (snd (snd run)) = db w
      /\ driver_notifications (fst (snd run)) = driver_notifications r
  | None =>
      order_assignments (db (snd (snd run)))
      = order_assignments (db w) ++ [row]
      /\ match fault_at 1 w with
         | Some e =>
             fst run = Throw e
             /\ orders (db (snd (snd run))) = orders (db w)
             /\ driver_notifications (fst (snd run))
                = driver_notifications r
         | None =>
             orders (db (snd (snd run)))
             = map (confirmed_at (o_id request) (now w)) (orders (db w))
             /\ match fault_at 2 w with
                | Some e =>
                    fst run = Throw e
                    /\ driver_notifications (fst (snd run))
                       = driver_notifications r
                | None =>
                    fst run = Return tt
                    /\ exists n,
                         driver_notifications (fst (snd run))
                         = driver_notifications r ++ [n]
                         /\ n_driver_id n = driver
                         /\ n_order_id n = o_id request
                         /\ n_notification_type n = "order_accepted"
                         /\ n_is_read n = false
                         /\ n_response n = None
                end
         end
  end.
Proof. exact (acceptOrder_run schema request driver r w). Qed.

(** X19. Once the insert of the assignment has been carried out, even if
    the rest of accepting failed, the accepted order is in no list of
    available orders that [useDriverOrders] returns at a later fetch, and
    it is in a list that [useAvailableOrders] returns only if the lookup
    of its assignments came back with an error; once the [orders] write
    has been carried out as well it is in no list that
    [useAvailableOrders] returns, whatever the remote calls come back
    with. *)
Theorem accepted_order_leaves_available (schema : Schema) (request : Order)
    (driver : string) (r : Rest) (w w' : World) (driverId : option string)
    (o : Order) :
  fault_at 0 w = None ->
  db w'
  = db (snd (snd (acceptOrder_mutationFn schema request driver tt (r, w)))) ->
  o_id o = o_id request ->
  (forall l, fst (availableOrders_queryFn schema w') = Return l -> o ∉ l)
  /\ (forall l,
        fst (useAvailableOrders_queryFn schema driverId w') = Return l ->
        o ∈ l ->
        exists e,
          (lookup_request (o_id o), Some e)
          ∈ issued (useAvailableOrders_queryFn schema driverId) w')
  /\ (fault_at 1 w = None ->
      forall l,
        fst (useAvailableOrders_queryFn schema driverId w') = Return l ->
        o ∉ l).
Proof.
  intros F0 D Ho.
  pose proof (acceptOrder_run schema request driver r w) as Run.
  cbv zeta in Run. rewrite F0 in Run. destruct Run as [Rows Rest].
  assert (~ unassigned (db w') o) as Taken.
  { intros U.
    apply (U (new_assignment (generated r) (o_id request) driver (now w))).
    - rewrite D, Rows. apply elem_of_app. right.
      by apply list_elem_of_singleton.
    - by rewrite Ho. }
  split; [|split].
  - intros l R In_l.
    by destruct (availableOrders_sound schema w' l o R In_l) as (_ & _ & U).
  - intros l R In_l.
    by destruct (useAvailableOrders_sound schema driverId w' l o R In_l)
      as (_ & _ & [U|E]).
  - intros F1 l R In_l. rewrite F1 in Rest. destruct Rest as [Orders _].
    destruct (useAvailableOrders_sound schema driverId w' l o R In_l)
      as (In_d & St & _).
    rewrite D, Orders in In_d.
    apply list_elem_of_fmap in In_d as (o0 & -> & _).
    revert Ho St. unfold confirmed_at. case_bool_decide; [done|].
    by intros ?.
Qed.

Lemma accepted_order_leaves_available_witness :
  let d' :=
    db (snd (snd (acceptOrder_mutationFn permissive
                    (sample_order "o2" "ready") "d1" tt
                    (nothing_yet,
                     failing sample_db "2024-05-01T13:00:00.000Z"
                       [None; Some timeout_error])))) in
  sample_order "o2" "ready" ∈ orders d'
  /\ exists l,
       fst (availableOrders_queryFn permissive
              (failing d' "2024-05-01T13:05:00.000Z" [])) = Return l
       /\ sample_order "o2" "ready" ∉ l.
Proof.
  intros d'. split.
  - apply list_elem_of_further. apply list_elem_of_here.
  - eexists. split; [reflexivity|].
    apply (proj1 (accepted_order_leaves_available permissive
                    (sample_order "o2" "ready") "d1" nothing_yet
                    (failing sample_db "2024-05-01T13:00:00.000Z"
                       [None; Some timeout_error])
                    (failing d' "2024-05-01T13:05:00.000Z" [])
                    None (sample_order "o2" "ready")
                    eq_refl eq_refl eq_refl)).
    reflexivity.
Defined.

(** X20. [mutateAsync] of accepting completes as the mutation function
    does; on success it invalidates [available-orders] and
    [driver-orders] and shows the success toast, on failure it
    invalidates nothing and shows a fixed error toast that does not carry
    the error's message. *)
Theorem accept_outcome (schema : Schema) (request : Order) (driver : string)
    (r : Rest) (w : World) :
  let inner := acceptOrder_mutationFn schema request driver tt (r, w) in
  let run := mutateAsync (acceptOrder schema request driver) tt (r, w) in
  fst run = fst inner
  /\ db (snd (snd run)) = db (snd (snd inner))
  /\ match fst inner with
     | Return _ =>
         toasts (snd (snd run))
         = toasts w ++ [toast_success "Pedido aceptado exitosamente"]
         /\ invalidated (snd (snd run))
            = invalidated w ++ [["available-orders"]; ["driver-orders"]]
     | Throw _ =>
         toasts (snd (snd run))
         = toasts w ++ [toast_error "Error al aceptar el pedido"]
         /\ invalidated (snd (snd run)) = invalidated w
     end.
Proof.
  destruct w as [d t fs cs inv ts].
  destruct fs as [|[e0|] fs]; [| |destruct fs as [|[e1|] fs];
    [| |destruct fs as [|[e2|] fs]]];
    cbn -[matches patch pretty]; rewrite <- ?app_assoc; done.
Qed.

(** X21. Rejecting an order never changes [orders] or
    [order_assignments], so the order stays available; if its one call is
    carried out, a notification marked [rejected] and read, stamped with
    the clock, is added, [available-orders] is invalidated and the toast
    says so; if the call fails, nothing is recorded, the error is handed
    on and a fixed error toast is shown. *)
Theorem reject_records_only (schema : Schema) (request : Order)
    (driver : string) (r : Rest) (w : World) :
  let run := mutateAsync (rejectOrder request driver) tt (r, w) in
  db (snd (snd run)) = db w
  /\ match fault_at 0 w with
     | Some e =>
         fst run = Throw e
         /\ driver_notifications (fst (snd run)) = driver_notifications r
         /\ toasts (snd (snd run))
            = toasts w ++ [toast_error "Error al rechazar el pedido"]
         /\ invalidated (snd (snd run)) = invalidated w
     | None =>
         fst run = Return tt
         /\ toasts (snd (snd run)) = toasts w ++ [toast_success "Pedido rechazado"]
         /\ invalidated (snd (snd run))
            = invalidated w ++ [["available-orders"]]
         /\ exists n,
              driver_notifications (fst (snd run))
              = driver_notifications r ++ [n]
              /\ n_driver_id n = driver
              /\ n_order_id n = o_id request
              /\ n_response n = Some "rejected"
              /\ n_is_read n = true
              /\ n_responded_at n = Some (now w)
     end.
Proof.
  destruct w as [d t fs cs inv ts].
  destruct fs as [|[e0|] fs]; cbn -[pretty]; repeat split; eauto 10.
Qed.

(** X22. Handling the accept button hands the error of the first failing
    call to its caller and, failed or not, leaves the accepting flag off
    and the rejecting flag as it was; likewise for the reject button.  So
    the buttons are never left disabled by their own handler. *)
Theorem handlers_reset_their_flag (schema : Schema) (request : Order)
    (driver : string) (r : Rest) (w : World) :
  let accepted := handleAccept schema request driver (r, w) in
  let rejected := handleReject request driver (r, w) in
  fst accepted = match fault_at 0 w, fault_at 1 w, fault_at 2 w with
                 | Some e, _, _ | None, Some e, _ | None, None, Some e =>
                     Throw e
                 | None, None, None => Return tt
                 end
  /\ isAccepting (fst (snd accepted)) = false
  /\ isRejecting (fst (snd accepted)) = isRejecting r
  /\ fst rejected = match fault_at 0 w with
                    | Some e => Throw e
                    | None => Return tt
                    end
  /\ isRejecting (fst (snd rejected)) = false
  /\ isAccepting (fst (snd rejected)) = isAccepting r.
Proof.
  destruct w as [d t fs cs inv ts], r as [ns k j a b].
  destruct fs as [|[e0|] fs]; [| |destruct fs as [|[e1|] fs];
    [| |destruct fs as [|[e2|] fs]]];
    cbn -[matches patch pretty]; done.
Qed.

(** ** Properties of the assignment of orders *)

(** X23. When the order has exactly one assignment and both calls are
    answered, assigning it to a driver rewrites that row in place: the
    driver and the time of assignment are replaced, every other column
    and every other row is kept, and no row is added. *)
Theorem assign_rewrites_single_row (schema : Schema) (order driver : string)
    (r : Rest) (w : World) :
  fault_at 0 w = None -> fault_at 1 w = None ->
  length (assignments_of order (db w)) = 1 ->
  let run := assignOrderToDriver_mutationFn schema (order, driver) (r, w) in
  fst run = Return tt
  /\ order_assignments (db (snd (snd run)))
     = map (reassigned order driver (now w)) (order_assignments (db w))
  /\ orders (db (snd (snd run))) = orders (db w).
Proof.
  intros F0 F1 One run. subst run.
  destruct (assignOrderToDriver_run schema order driver r w) as [O R].
  rewrite F0, F1 in R. rewrite bool_decide_eq_true_2 in R by exact One.
  by destruct R.
Qed.

Lemma assign_rewrites_single_row_witness :
  order_assignments
    (db (snd (snd (assignOrderToDriver_mutationFn permissive ("o3", "d2")
                     (card_world sample_db "2024-05-01T13:00:00.000Z")))))
  = [{| a_id := "a1"; a_order_id := "o3"; a_driver_id := "d2";
        a_assigned_at := "2024-05-01T13:00:00.000Z";
        a_picked_up_at := None; a_delivered_at := None |}].
Proof.
  exact (proj1 (proj2 (assign_rewrites_single_row permissive "o3" "d2"
                         nothing_yet
                         (faithful sample_db "2024-05-01T13:00:00.000Z")
                         eq_refl eq_refl eq_refl))).
Defined.

(** X24. When the lookup of the existing assignment comes back with an
    error, or finds no row or more than one, and the write is answered,
    a new assignment row for the order and the driver is appended and
    every existing row is kept as it was: several rows are never
    reconciled, and a failed lookup is taken for no assignment. *)
Theorem assign_appends_otherwise (schema : Schema) (order driver : string)
    (r : Rest) (w : World) :
  is_Some (fault_at 0 w) \/ length (assignments_of order (db w)) <> 1 ->
  fault_at 1 w = None ->
  let run := assignOrderToDriver_mutationFn schema (order, driver) (r, w) in
  fst run = Return tt
  /\ order_assignments (db (snd (snd run)))
     = order_assignments (db w)
       ++ [new_assignment (generated r) order driver (now w)]
  /\ orders (db (snd (snd run))) = orders (db w).
Proof.
  intros Not F1 run. subst run.
  destruct (assignOrderToDriver_run schema order driver r w) as [O R].
  rewrite F1 in R. destruct R as [R A]. split; [exact R|].
  split; [|exact O]. rewrite A.
  destruct (fault_at 0 w) as [e|]; [done|].
  destruct Not as [[? ?]|Not]; [done|].
  by rewrite bool_decide_eq_false_2.
Qed.

Lemma assign_appends_otherwise_witness :
  map a_driver_id
    (order_assignments
       (db (snd (snd (assignOrderToDriver_mutationFn permissive ("o3", "d2")
                        (nothing_yet,
                         failing sample_db "2024-05-01T13:00:00.000Z"
                           [Some timeout_error]))))))
  = ["d1"; "d2"].
Proof.
  destruct (assign_appends_otherwise permissive "o3" "d2" nothing_yet
              (failing sample_db "2024-05-01T13:00:00.000Z"
                 [Some timeout_error])) as (_ & A & _).
  - left. by eexists.
  - reflexivity.
  - rewrite A. reflexivity.
Defined.

(** X25. Whatever the remote calls come back with, assigning an order
    never changes [orders], and it throws exactly the error of its
    write: an error of the lookup is never thrown.  When it returns,
    some assignment of the order names the driver. *)
Theorem assign_postcondition (schema : Schema) (order driver : string)
    (r : Rest) (w : World) :
  let run := assignOrderToDriver_mutationFn schema (order, driver) (r, w) in
  orders (db (snd (snd run))) = orders (db w)
  /\ match fault_at 1 w with
     | Some e => fst run = Throw e /\ db (snd (snd run)) = db w
     | None =>
         fst run = Return tt
         /\ exists a, a ∈ order_assignments (db (snd (snd run)))
                      /\ a_order_id a = order /\ a_driver_id a = driver
                      /\ a_assigned_at a = now w
     end.
Proof.
  intros run. subst run.
  destruct (assignOrderToDriver_run schema order driver r w) as [O R].
  split; [exact O|].
  destruct (fault_at 1 w) as [e|]; [exact R|].
  destruct R as [R A]. split; [exact R|]. rewrite A.
  assert ((match fault_at 0 w with
           | Some _ => false
           | None => bool_decide (length (assignments_of order (db w)) = 1)
           end) = true ->
          exists a, a ∈ order_assignments (db w) /\ a_order_id a = order)
    as Found.
  { destruct (fault_at 0 w); [done|]. intros One%bool_decide_eq_true.
    destruct (assignments_of order (db w)) as [|a l] eqn:E; [done|].
    assert (a ∈ assignments_of order (db w)) as Ha by (rewrite E; by left).
    unfold assignments_of in Ha.
    apply list_elem_of_In, filter_In in Ha as [Ha Eq].
    exists a. split; [by apply list_elem_of_In|].
    by apply bool_decide_eq_true in Eq. }
  destruct (match fault_at 0 w with
            | Some _ => false
            | None => bool_decide (length (assignments_of order (db w)) = 1)
            end).
  - destruct (Found eq_refl) as (a & Ha & Eq).
    exists (reassigned order driver (now w) a).
    split; [by apply list_elem_of_fmap_2|].
    unfold reassigned. by rewrite bool_decide_eq_true_2.
  - eexists. split; [apply elem_of_app; right; by left|]. done.
Qed.

(** ** The age of a request *)

(** X26. A request made less than a minute before the clock reading, or
    after it, reads "Hace menos de 1 min"; from one minute up to the hour
    it reads the whole minutes elapsed. *)
Theorem timeAgo_minutes (clock created : Z) :
  ((clock - created < 60000)%Z ->
   timeAgo clock created = "Hace menos de 1 min")
  /\ ((60000 <= clock - created < 3600000)%Z ->
      (1 <= (clock - created) / 60000 < 60)%Z
      /\ timeAgo clock created
         = "Hace " +:+ pretty ((clock - created) / 60000)%Z +:+ " min").
Proof.
  unfold timeAgo. cbv zeta.
  pose proof (Z.div_lt_upper_bound (clock - created) 60000 1) as Up.
  pose proof (Z.div_le_lower_bound (clock - created) 60000 1) as Low.
  pose proof (Z.div_lt_upper_bound (clock - created) 60000 60) as Up60.
  split.
  - intros H. destruct (Z.ltb_spec ((clock - created) / 60000) 1); [done|lia].
  - intros H.
    destruct (Z.ltb_spec ((clock - created) / 60000) 1); [lia|].
    destruct (Z.ltb_spec ((clock - created) / 60000) 60); [|lia].
    split; [lia|done].
Qed.

Lemma timeAgo_minutes_witness :
  timeAgo 1714568400000 1714568700000 = "Hace menos de 1 min".
Proof.
  apply (proj1 (timeAgo_minutes 1714568400000 1714568700000)). lia.
Defined.

(** X27. From one hour on the age reads "Hace [h]h [m]m" where [h] is at
    least one, [m] is between 0 and 59, and [h] hours and [m] minutes are
    exactly the whole minutes elapsed. *)
Theorem timeAgo_hours (clock created : Z) :
  (3600000 <= clock - created)%Z ->
  exists h m : Z,
    timeAgo clock created
    = "Hace " +:+ pretty h +:+ "h " +:+ pretty m +:+ "m"
    /\ (1 <= h)%Z /\ (0 <= m < 60)%Z
    /\ (60000 * (60 * h + m) <= clock - created
        < 60000 * (60 * h + m + 1))%Z.
Proof.
  intros H. unfold timeAgo. cbv zeta.
  set (minutes := ((clock - created) / 60000)%Z).
  assert (60 <= minutes)%Z as M
    by (apply Z.div_le_lower_bound; lia).
  pose proof (Z.div_mod (clock - created) 60000 ltac:(lia)) as D.
  pose proof (Z.mod_pos_bound (clock - created) 60000 ltac:(lia)) as B.
  fold minutes in D.
  destruct (Z.ltb_spec minutes 1); [lia|].
  destruct (Z.ltb_spec minutes 60); [lia|].
  exists (minutes / 60)%Z, (Z.rem minutes 60). split; [done|].
  rewrite Z.rem_mod_nonneg by lia.
  pose proof (Z.div_mod minutes 60 ltac:(lia)) as D'.
  pose proof (Z.mod_pos_bound minutes 60 ltac:(lia)) as B'.
  assert (1 <= minutes / 60)%Z by (apply Z.div_le_lower_bound; lia).
  repeat split; lia.
Qed.

Lemma timeAgo_hours_witness :
  exists h m : Z,
    timeAgo 1714575900000 1714568400000
    = "Hace " +:+ pretty h +:+ "h " +:+ pretty m +:+ "m"
    /\ (1 <= h)%Z /\ (0 <= m < 60)%Z.
Proof.
  destruct (timeAgo_hours 1714575900000 1714568400000) as (h & m & E & H & M & _);
    [lia|].
  exists h, m. split; [exact E|]. split; [exact H|exact M].
Defined.
